(** * A proof-of-work ledger node (node_server.py)

    Shallow embedding of the [Block] and [Blockchain] classes and of the
    module-level functions [create_chain_from_dump],
    [register_with_existing_node] and [consensus], followed by the properties
    of the ledger state machine.

    Conventions of the embedding.
    - A Python object that the code mutates (a [Block], the [Blockchain], the
      module globals) is passed in and handed back: a method returns its
      result together with the object as it is afterwards.
    - A raised exception is a value of [result]; the state that comes with it
      is the state at the moment of the raise.
    - [proof_of_work] is a [while] loop with no bound; it is given a number of
      iterations it may use and answers [None] when they do not suffice.
    - [hashlib.sha256] and [json.dumps] are library code; they are written
      out here (FIPS 180-4, and the encoder of the json module for the values
      a block can hold) so that digests can be evaluated.
    - A float is only ever carried and printed by the code; it is represented
      by its [repr]. *)

From Stdlib Require Import ZArith List String Ascii DecimalString Bool Lia ListSet Permutation.
Import ListNotations.
Open Scope Z_scope.

(* ------------------------------------------------------------------ *)
(** * Exceptions *)

Inductive exn : Type :=
  | IndexError
  | AttributeError
  | ConnectionError
  | Exception (msg : string).

Inductive result (A : Type) : Type :=
  | Ok (value : A)
  | Raise (e : exn).

Arguments Ok {A} value.
Arguments Raise {A} e.

Definition bind {A B : Type} (r : result A) (k : A -> result B) : result B :=
  match r with
  | Ok a => k a
  | Raise e => Raise e
  end.

Declare Scope result_scope.
Delimit Scope result_scope with result.
Notation "x <- r ;; k" := (bind r (fun x => k))
  (at level 100, r at next level, right associativity) : result_scope.

(* ------------------------------------------------------------------ *)
(** * hashlib.sha256 *)

Module SHA256.

Definition mask32 : Z := 0xFFFFFFFF.
Definition trunc32 (x : Z) : Z := Z.land x mask32.
Definition add32 (x y : Z) : Z := trunc32 (x + y).
Definition rotr (n x : Z) : Z :=
  Z.lor (Z.shiftr x n) (trunc32 (Z.shiftl x (32 - n))).
Definition not32 (x : Z) : Z := Z.lxor x mask32.

Definition choose (e f g : Z) : Z :=
  Z.lxor (Z.land e f) (Z.land (not32 e) g).
Definition majority (a b c : Z) : Z :=
  Z.lxor (Z.lxor (Z.land a b) (Z.land a c)) (Z.land b c).
Definition big_sigma0 (a : Z) : Z :=
  Z.lxor (Z.lxor (rotr 2 a) (rotr 13 a)) (rotr 22 a).
Definition big_sigma1 (e : Z) : Z :=
  Z.lxor (Z.lxor (rotr 6 e) (rotr 11 e)) (rotr 25 e).
Definition small_sigma0 (w : Z) : Z :=
  Z.lxor (Z.lxor (rotr 7 w) (rotr 18 w)) (Z.shiftr w 3).
Definition small_sigma1 (w : Z) : Z :=
  Z.lxor (Z.lxor (rotr 17 w) (rotr 19 w)) (Z.shiftr w 10).

(** The constants are taken from their definition in the standard: the
    first 32 bits of the fractional parts of the cube roots (for the rounds)
    and of the square roots (for the initial state) of the first primes. *)
Definition primes : list Z :=
  [ 2; 3; 5; 7; 11; 13; 17; 19; 23; 29; 31; 37; 41; 43; 47; 53;
    59; 61; 67; 71; 73; 79; 83; 89; 97; 101; 103; 107; 109; 113; 127; 131;
    137; 139; 149; 151; 157; 163; 167; 173; 179; 181; 191; 193; 197; 199; 211; 223;
    227; 229; 233; 239; 241; 251; 257; 263; 269; 271; 277; 281; 283; 293; 307; 311 ].

(** Integer cube root, one bit at a time from [bit] down. *)
Fixpoint cube_root_from (bit : nat) (n r : Z) : Z :=
  let candidate := r + 2 ^ Z.of_nat bit in
  let r := if candidate * candidate * candidate <=? n then candidate else r in
  match bit with
  | O => r
  | S bit' => cube_root_from bit' n r
  end.

Definition round_constants : list Z :=
  Eval vm_compute in
    map (fun p => trunc32 (cube_root_from 40 (p * 2 ^ 96) 0)) primes.

Definition initial_state : list Z :=
  Eval vm_compute in
    map (fun p => trunc32 (Z.sqrt (p * 2 ^ 64))) (firstn 8 primes).

(** The message schedule is unrolled from a window of the last sixteen
    words: the head of the window is emitted and the word sixteen places
    later is pushed at its end. *)
Definition next_word (win : list Z) : Z :=
  add32 (add32 (small_sigma1 (nth 14 win 0)) (nth 9 win 0))
        (add32 (small_sigma0 (nth 1 win 0)) (nth 0 win 0)).

Fixpoint schedule (n : nat) (win : list Z) : list Z :=
  match n, win with
  | S n', w0 :: rest => w0 :: schedule n' (rest ++ [next_word win])
  | _, _ => []
  end.

Definition round (st : list Z) (wk : Z * Z) : list Z :=
  match st with
  | [a; b; c; d; e; f; g; h] =>
      let t1 := add32 (add32 (add32 h (big_sigma1 e))
                             (add32 (choose e f g) (snd wk))) (fst wk) in
      let t2 := add32 (big_sigma0 a) (majority a b c) in
      [add32 t1 t2; a; b; c; add32 d t1; e; f; g]
  | _ => st
  end.

Definition compress (st : list Z) (block : list Z) : list Z :=
  let final := fold_left round (combine (schedule 64 block) round_constants) st in
  map (fun p => add32 (fst p) (snd p)) (combine st final).

Fixpoint group (size n : nat) (l : list Z) : list (list Z) :=
  match n with
  | O => []
  | S n' => firstn size l :: group size n' (skipn size l)
  end.

Definition be_word (bytes : list Z) : Z :=
  fold_left (fun acc b => acc * 256 + b) bytes 0.

Fixpoint be_bytes (n : nat) (x : Z) : list Z :=
  match n with
  | O => []
  | S n' => be_bytes n' (Z.shiftr x 8) ++ [Z.land x 255]
  end.

Definition pad (msg : list Z) : list Z :=
  let len := List.length msg in
  let zeros := ((64 - (len + 9) mod 64) mod 64)%nat in
  msg ++ [128] ++ repeat 0 zeros ++ be_bytes 8 (8 * Z.of_nat len).

Definition digest_words (msg : list Z) : list Z :=
  let padded := pad msg in
  let blocks := group 64 (List.length padded / 64) padded in
  fold_left (fun st blk => compress st (map be_word (group 4 16 blk)))
            blocks initial_state.

Definition hex_digit (d : Z) : ascii :=
  ascii_of_N (Z.to_N (if d <? 10 then 48 + d else 87 + d)).

Fixpoint hex_of (digits : nat) (x : Z) (acc : string) : string :=
  match digits with
  | O => acc
  | S n => hex_of n (Z.shiftr x 4) (String (hex_digit (Z.land x 15)) acc)
  end.

(** [block_string.encode()]: the text the encoder below produces is ASCII,
    one byte per character. *)
Definition encode (s : string) : list Z :=
  map (fun c => Z.of_N (N_of_ascii c)) (list_ascii_of_string s).

(** [sha256(bytes).hexdigest()] *)
Definition hexdigest (s : string) : string :=
  fold_right (fun w acc => hex_of 8 w acc) EmptyString (digest_words (encode s)).

End SHA256.

Arguments SHA256.hexdigest : simpl never.

(* ------------------------------------------------------------------ *)
(** * JSON values and json.dumps(..., sort_keys=True) *)

Open Scope string_scope.

(** A Python number as the code handles it: an [int], or a [float] given by
    the text [float.__repr__] prints for it. *)
Inductive number : Type :=
  | Int (z : Z)
  | Float (repr : string).

#[local] Set Warnings "-register-all".

Inductive json : Type :=
  | JNull
  | JBool (b : bool)
  | JNum (n : number)
  | JStr (s : string)
  | JList (items : list json)
  | JDict (items : list (string * json)).

Module Json.

Definition dquote : ascii := "034"%char.
Definition backslash : ascii := "092"%char.

(** How [json.dumps] prints a number: an int in decimal, a finite float by
    its [repr], the others as NaN, Infinity and -Infinity. *)
Definition number_repr (n : number) : string :=
  match n with
  | Int z => NilZero.string_of_int (Z.to_int z)
  | Float repr =>
      if String.eqb repr "nan" then "NaN"
      else if String.eqb repr "inf" then "Infinity"
      else if String.eqb repr "-inf" then "-Infinity"
      else repr
  end.

(** One character of a string under [ensure_ascii=True]: the two-character
    escapes, and [\u00xx] for whatever lies outside of the printable range
    space to tilde. *)
Definition escape_char (c : ascii) : string :=
  let n := Z.of_N (N_of_ascii c) in
  (if n =? 34 then String backslash (String dquote EmptyString)
   else if n =? 92 then String backslash (String backslash EmptyString)
   else if n =? 10 then String backslash "n"%string
   else if n =? 13 then String backslash "r"%string
   else if n =? 9 then String backslash "t"%string
   else if n =? 12 then String backslash "f"%string
   else if n =? 8 then String backslash "b"%string
   else if (32 <=? n) && (n <=? 126) then String c EmptyString
   else String backslash ("u" ++ SHA256.hex_of 4 n EmptyString)%string)%Z.

Fixpoint escape (s : string) : string :=
  match s with
  | EmptyString => EmptyString
  | String c rest => escape_char c ++ escape rest
  end.

Definition encode_string (s : string) : string :=
  String dquote (escape s ++ String dquote EmptyString).

Fixpoint join (sep : string) (parts : list string) : string :=
  match parts with
  | [] => EmptyString
  | [p] => p
  | p :: rest => p ++ sep ++ join sep rest
  end.

(** [sorted(dct.items())] on the already rendered items: by key, in code
    point order. *)
Fixpoint insert_item (kv : string * string) (sorted : list (string * string))
  : list (string * string) :=
  match sorted with
  | [] => [kv]
  | kv' :: rest =>
      if String.leb (fst kv) (fst kv') then kv :: sorted
      else kv' :: insert_item kv rest
  end.

Definition sort_items (items : list (string * string)) : list (string * string) :=
  fold_right insert_item [] items.

Definition render_item (kv : string * string) : string :=
  encode_string (fst kv) ++ ": " ++ snd kv.

(** [json.dumps(value, sort_keys=True)] with the default separators. *)
Fixpoint dumps (value : json) : string :=
  match value with
  | JNull => "null"
  | JBool true => "true"
  | JBool false => "false"
  | JNum n => number_repr n
  | JStr s => encode_string s
  | JList items => "[" ++ join ", " (map dumps items) ++ "]"
  | JDict items =>
      "{" ++ join ", " (map render_item
                (sort_items (map (fun kv => (fst kv, dumps (snd kv))) items)))
          ++ "}"
  end.

End Json.

(* ------------------------------------------------------------------ *)
(** * str helpers *)

(** [s.startswith(p)] *)
Definition startswith (s p : string) : bool := String.prefix p s.

(** [s * n] *)
Fixpoint str_mul (s : string) (n : nat) : string :=
  match n with
  | O => EmptyString
  | S n' => s ++ str_mul s n'
  end.

Open Scope list_scope.
Open Scope Z_scope.

(* ------------------------------------------------------------------ *)
(** * class Block *)

(** The attributes of a [Block] object.  [hash] is not set by [__init__]: it
    is [None] until [block.hash = ...] runs and again after
    [delattr(block, "hash")]. *)
Record Block : Type := mkBlock {
  index : Z;
  transactions : list json;
  timestamp : number;
  previous_hash : string;
  nonce : Z;
  hash : option string
}.

(** [Block(index, transactions, timestamp, previous_hash, nonce)] *)
Definition Block_init (index : Z) (transactions : list json) (timestamp : number)
    (previous_hash : string) (nonce : Z) : Block :=
  mkBlock index transactions timestamp previous_hash nonce None.

Definition set_nonce (self : Block) (n : Z) : Block :=
  mkBlock (index self) (transactions self) (timestamp self)
          (previous_hash self) n (hash self).

Definition set_hash (self : Block) (h : string) : Block :=
  mkBlock (index self) (transactions self) (timestamp self)
          (previous_hash self) (nonce self) (Some h).

(** [delattr(block, "hash")], where the attribute is there *)
Definition delattr_hash (self : Block) : Block :=
  mkBlock (index self) (transactions self) (timestamp self)
          (previous_hash self) (nonce self) None.

(** [self.__dict__]: every attribute the object carries at the moment, in
    the order they were set. *)
Definition Block_dict (self : Block) : json :=
  JDict ([ ("index", JNum (Int (index self)));
           ("transactions", JList (transactions self));
           ("timestamp", JNum (timestamp self));
           ("previous_hash", JStr (previous_hash self));
           ("nonce", JNum (Int (nonce self))) ]
         ++ match hash self with
            | Some h => [ ("hash", JStr h) ]
            | None => []
            end).

Definition compute_hash (self : Block) : string :=
  let block_string := Json.dumps (Block_dict self) in
  SHA256.hexdigest block_string.

Arguments compute_hash : simpl never.

(** [block.hash] read as an attribute *)
Definition getattr_hash (self : Block) : result string :=
  match hash self with
  | Some h => Ok h
  | None => Raise AttributeError
  end.

(* ------------------------------------------------------------------ *)
(** * class Blockchain *)

Record Blockchain : Type := mkBlockchain {
  unconfirmed_transactions : list json;
  chain : list Block
}.

Definition Blockchain_init : Blockchain := mkBlockchain [] [].

Definition set_chain (self : Blockchain) (c : list Block) : Blockchain :=
  mkBlockchain (unconfirmed_transactions self) c.

Definition set_unconfirmed_transactions (self : Blockchain) (txs : list json)
  : Blockchain :=
  mkBlockchain txs (chain self).

Definition genesis_block : Block :=
  let genesis_block := Block_init 0 [] (Int 0) "0" 0 in
  set_hash genesis_block (compute_hash genesis_block).

Definition create_genesis_block (self : Blockchain) : Blockchain :=
  set_chain self (chain self ++ [genesis_block]).

(** [self.chain[-1]] *)
Definition last_block (self : Blockchain) : result Block :=
  match rev (chain self) with
  | [] => Raise IndexError
  | b :: _ => Ok b
  end.

Definition add_new_transaction (self : Blockchain) (transaction : json)
  : Blockchain :=
  set_unconfirmed_transactions self (unconfirmed_transactions self ++ [transaction]).

(** An element of a list handed to [check_chain_validity]: a [Block] object,
    or the dict a peer sends for a block ([block.__dict__] on the wire). *)
Record BlockData : Type := mkBlockData {
  data_index : Z;
  data_transactions : list json;
  data_timestamp : number;
  data_previous_hash : string;
  data_nonce : Z;
  data_hash : string
}.

Inductive pyobj : Type :=
  | PBlock (b : Block)
  | PDict (d : BlockData).

Section WithDifficulty.

(** The class attribute [Blockchain.difficulty]. *)
Variable difficulty : nat.

Definition is_valid_proof (block : Block) (block_hash : string) : bool :=
  startswith block_hash (str_mul "0" difficulty)
  && String.eqb block_hash (compute_hash block).

(** Returns the verdict and the [Blockchain] as it is afterwards; the block
    in the chain is the caller's block with [hash] assigned. *)
Definition add_block (self : Blockchain) (block : Block) (proof : string)
  : result bool * Blockchain :=
  match last_block self with
  | Raise e => (Raise e, self)
  | Ok tip =>
      match getattr_hash tip with
      | Raise e => (Raise e, self)
      | Ok previous_hash' =>
          if negb (String.eqb previous_hash' (previous_hash block)) then
            (Ok false, self)
          else if negb (is_valid_proof block proof) then
            (Ok false, self)
          else
            let block := set_hash block proof in
            (Ok true, set_chain self (chain self ++ [block]))
      end
  end.

(** The [while] loop of [proof_of_work]; [fuel] bounds the number of times
    its body may run. *)
Fixpoint proof_of_work_loop (fuel : nat) (block : Block) (computed_hash : string)
  : option (string * Block) :=
  if startswith computed_hash (str_mul "0" difficulty) then
    Some (computed_hash, block)
  else
    match fuel with
    | O => None
    | S fuel' =>
        let block := set_nonce block (nonce block + 1) in
        proof_of_work_loop fuel' block (compute_hash block)
    end.

(** Returns the digest and the block as the search leaves it. *)
Definition proof_of_work (fuel : nat) (block : Block) : option (string * Block) :=
  let block := set_nonce block 0 in
  proof_of_work_loop fuel block (compute_hash block).

(** The loop of [check_chain_validity] from a given [previous_hash] on.
    Returns the verdict and the elements of the list as they are
    afterwards. *)
Fixpoint check_chain_validity_from (previous_hash' : string) (chain : list pyobj)
  : result bool * list pyobj :=
  match chain with
  | [] => (Ok true, [])
  | PDict d :: rest => (Raise AttributeError, PDict d :: rest)
  | PBlock block :: rest =>
      match getattr_hash block with
      | Raise e => (Raise e, PBlock block :: rest)
      | Ok block_hash =>
          let block := delattr_hash block in
          if negb (is_valid_proof block block_hash)
             || negb (String.eqb previous_hash' (previous_hash block)) then
            (Ok false, PBlock block :: rest)
          else
            let block := set_hash block block_hash in
            let (result, rest') := check_chain_validity_from block_hash rest in
            (result, PBlock block :: rest')
      end
  end.

Definition check_chain_validity (chain : list pyobj) : result bool * list pyobj :=
  check_chain_validity_from "0" chain.

(** [now] is the value [time.time()] returns.  The outer [option] is [None]
    when the proof-of-work search does not end within [fuel]. *)
Definition mine (fuel : nat) (now : number) (self : Blockchain)
  : option (result bool * Blockchain) :=
  match unconfirmed_transactions self with
  | [] => Some (Ok false, self)
  | _ :: _ =>
      match last_block self with
      | Raise e => Some (Raise e, self)
      | Ok last_block =>
          match getattr_hash last_block with
          | Raise e => Some (Raise e, self)
          | Ok last_hash =>
              let new_block :=
                Block_init (index last_block + 1)
                           (unconfirmed_transactions self)
                           now last_hash 0 in
              match proof_of_work fuel new_block with
              | None => None
              | Some (proof, new_block) =>
                  match add_block self new_block proof with
                  | (Raise e, self) => Some (Raise e, self)
                  | (Ok _, self) =>
                      Some (Ok true, set_unconfirmed_transactions self [])
                  end
              end
          end
      end
  end.

(* ------------------------------------------------------------------ *)
(** * The node: module globals and the functions over them *)

(** What the global [blockchain] is bound to: a [Blockchain] object, or,
    after [blockchain = longest_chain] in [consensus], the list a peer
    sent. *)
Inductive ledger : Type :=
  | LedgerObject (bc : Blockchain)
  | LedgerList (dump : list pyobj).

Record Node : Type := mkNode {
  blockchain : ledger;
  peers : set string
}.

(** The loop of [create_chain_from_dump]; [idx] is the counter of
    [enumerate]. *)
Fixpoint create_chain_from_dump_loop (generated_blockchain : Blockchain)
    (idx : nat) (chain_dump : list BlockData) : result Blockchain :=
  match chain_dump with
  | [] => Ok generated_blockchain
  | block_data :: rest =>
      if Nat.eqb idx 0 then
        create_chain_from_dump_loop generated_blockchain (S idx) rest
      else
        let block := Block_init (data_index block_data)
                                (data_transactions block_data)
                                (data_timestamp block_data)
                                (data_previous_hash block_data)
                                (data_nonce block_data) in
        let proof := data_hash block_data in
        match add_block generated_blockchain block proof with
        | (Raise e, _) => Raise e
        | (Ok false, _) => Raise (Exception "The chain dump is tampered!!")
        | (Ok true, generated_blockchain) =>
            create_chain_from_dump_loop generated_blockchain (S idx) rest
        end
  end.

Definition create_chain_from_dump (chain_dump : list BlockData) : result Blockchain :=
  let generated_blockchain := create_genesis_block Blockchain_init in
  create_chain_from_dump_loop generated_blockchain 0 chain_dump.

(** The answer of the remote node to [POST /register_node], as
    [register_with_existing_node] reads it. *)
Record RegisterResponse : Type := mkRegisterResponse {
  status_code : Z;
  content : string;
  response_chain : list BlockData;
  response_peers : list string
}.

(** [response] is what [requests.post] gives: a response or an exception.
    Returns the pair the view returns and the globals afterwards. *)
Definition register_with_existing_node (node_address : string)
    (response : result RegisterResponse) (node : Node)
  : result (string * Z) * Node :=
  if String.eqb node_address EmptyString then
    (Ok ("Invalid data", 400), node)
  else
    match response with
    | Raise e => (Raise e, node)
    | Ok response =>
        if status_code response =? 200 then
          let chain_dump := response_chain response in
          match create_chain_from_dump chain_dump with
          | Raise e => (Raise e, node)
          | Ok generated =>
              (Ok ("Registration successful", 200),
               mkNode (LedgerObject generated)
                      (set_union string_dec (peers node) (response_peers response)))
          end
        else
          (Ok (content response, status_code response), node)
    end.

(** The answer of a peer to [GET /chain]: the [length] it reports and the
    list of block dicts. *)
Record ChainResponse : Type := mkChainResponse {
  response_length : Z;
  response_dump : list BlockData
}.

(** [len(blockchain.chain)] on the global *)
Definition ledger_chain_len (l : ledger) : result Z :=
  match l with
  | LedgerObject bc => Ok (Z.of_nat (List.length (chain bc)))
  | LedgerList _ => Raise AttributeError
  end.

(** The [for node in peers] loop of [consensus]: [fetched] holds, in the
    order the set is iterated, what [requests.get] gives for each peer. *)
Fixpoint consensus_loop (fetched : list (result ChainResponse))
    (current_len : Z) (longest_chain : option (list pyobj))
  : result (option (list pyobj)) :=
  match fetched with
  | [] => Ok longest_chain
  | Raise e :: _ => Raise e
  | Ok response :: rest =>
      let length := response_length response in
      let chain := map PDict (response_dump response) in
      if negb (length >? current_len) then
        consensus_loop rest current_len longest_chain
      else
        match check_chain_validity chain with
        | (Raise e, _) => Raise e
        | (Ok false, _) => consensus_loop rest current_len longest_chain
        | (Ok true, chain) => consensus_loop rest length (Some chain)
        end
  end.

(** [if longest_chain:] *)
Definition truthy (longest_chain : option (list pyobj)) : bool :=
  match longest_chain with
  | None => false
  | Some [] => false
  | Some (_ :: _) => true
  end.

Definition consensus (fetched : list (result ChainResponse)) (node : Node)
  : result bool * Node :=
  match ledger_chain_len (blockchain node) with
  | Raise e => (Raise e, node)
  | Ok current_len =>
      match consensus_loop fetched current_len None with
      | Raise e => (Raise e, node)
      | Ok longest_chain =>
          if truthy longest_chain then
            match longest_chain with
            | Some c => (Ok true, mkNode (LedgerList c) (peers node))
            | None => (Ok false, node)
            end
          else (Ok false, node)
      end
  end.

End WithDifficulty.

(* ------------------------------------------------------------------ *)
(** * The running node and a recorded scenario *)

(** [difficulty = 4] in the class body. *)
Definition Blockchain_difficulty : nat := 4.

(** The module-level [blockchain = Blockchain(); blockchain.create_genesis_block()]. *)
Definition initial_blockchain : Blockchain := create_genesis_block Blockchain_init.

Definition initial_node : Node := mkNode (LedgerObject initial_blockchain) [].

(** A record as [new_transaction] stores it. *)
Definition tx_a : json :=
  JDict [ ("author", JStr "a"); ("content", JStr "hi");
          ("timestamp", JNum (Float "1700000000.25")) ].

Definition genesis_digest : string :=
  "6dbf23122cb5046cc5c0c1b245c75f8e43c59ca8ffeac292715e5078e631d0c9".

(** The candidate [mine] builds on the initial chain when the pool holds
    [tx_a] and the clock reads 1700083790.5; the search settles on nonce 3. *)
Definition mining_time : number := Float "1700083790.5".

Definition candidate_1 : Block :=
  Block_init 1 [tx_a] mining_time genesis_digest 0.

Definition digest_1 : string :=
  "0000b87dc481ba4e3bf5690620ded356504d2123007dd5184266e34f59edf66e".

Definition block_1 : Block := set_hash (set_nonce candidate_1 3) digest_1.

(** The genesis fields sealed for difficulty 4 (nonce 25163), and a block
    sealed on top of that one: a chain whose every block carries a proof of
    work. *)
Definition mined_genesis : Block :=
  mkBlock 0 [] (Int 0) "0" 25163
    (Some "000032e43be950a2ed50c2806e1eca61f37bd8a42ca18720e18bab6c7a73da34").

Definition mined_second : Block :=
  mkBlock 1 [tx_a] (Float "1700087208.5")
    "000032e43be950a2ed50c2806e1eca61f37bd8a42ca18720e18bab6c7a73da34" 1
    (Some "0000b35e08f817d4bd645b905ba18c745d3246f8745b203d2635c2f6e4ecc3f9").

(** The pool after [new_transaction] has stored [tx_a] on the initial node. *)
Definition blockchain_with_pool : Blockchain :=
  add_new_transaction initial_blockchain tx_a.

(** [block.__dict__] as [get_chain] sends it. *)
Definition to_data (b : Block) (h : string) : BlockData :=
  mkBlockData (index b) (transactions b) (timestamp b) (previous_hash b)
              (nonce b) h.

(** The fields [create_chain_from_dump] and [verify_and_add_block] read from
    a dict to build the [Block]. *)
Definition of_data (block_data : BlockData) : Block :=
  Block_init (data_index block_data) (data_transactions block_data)
             (data_timestamp block_data) (data_previous_hash block_data)
             (data_nonce block_data).

(** The candidate [mine] builds over a given tip: [nonce] is the default of
    [Block.__init__]. *)
Definition mine_candidate (self : Blockchain) (tip : Block) (tip_hash : string)
    (now : number) : Block :=
  Block_init (index tip + 1) (unconfirmed_transactions self) now tip_hash 0.

(** The block [create_chain_from_dump] has appended for a dict that passed:
    built from its fields, with [hash] assigned from its [hash] entry. *)
Definition sealed_of_data (block_data : BlockData) : Block :=
  set_hash (of_data block_data) (data_hash block_data).

Definition tampered : exn := Exception "The chain dump is tampered!!".

(** A dump whose second block is the one mined above and whose third block
    claims a hash that is not its digest. *)
Definition forged_data : BlockData :=
  mkBlockData 2 [tx_a] mining_time digest_1 0 digest_1.

Definition tampered_dump : list BlockData :=
  [ to_data mined_second "anything"; to_data block_1 digest_1; forged_data;
    to_data mined_second "never reached" ].

Definition tampered_response : RegisterResponse :=
  mkRegisterResponse 200 EmptyString tampered_dump [ "http://10.253.19.173:8000/" ].

Definition honest_dump : list BlockData :=
  [ to_data mined_second "anything"; to_data block_1 digest_1 ].

(** What a peer that has mined [block_1] on the initial chain answers to
    [GET /chain]. *)
Definition peer_chain_response : ChainResponse :=
  mkChainResponse 2 [ to_data genesis_block genesis_digest; to_data block_1 digest_1 ].

(** The ledger has a tip and the tip carries a hash: what [add_block] and
    [mine] read through [self.last_block.hash]. *)
Definition has_sealed_tip (self : Blockchain) : Prop :=
  exists tip tip_hash, last_block self = Ok tip /\ hash tip = Some tip_hash.

(** The digest input as the specification words it: the fields index,
    transactions, timestamp, previous_hash and nonce and no hash, as rendered
    items with their keys in sorted order, and the text they make. *)
Definition canonical_items (b : Block) : list (string * string) :=
  [ ("index", Json.number_repr (Int (index b)));
    ("nonce", Json.number_repr (Int (nonce b)));
    ("previous_hash", Json.encode_string (previous_hash b));
    ("timestamp", Json.number_repr (timestamp b));
    ("transactions", Json.dumps (JList (transactions b))) ].

Definition render_items (items : list (string * string)) : string :=
  ("{" ++ Json.join ", " (map Json.render_item items) ++ "}")%string.

Definition canonical_text (b : Block) : string :=
  render_items (canonical_items b).

(** Two blocks carry the same values in the five fields [__init__] sets. *)
Definition same_init_fields (b1 b2 : Block) : Prop :=
  index b1 = index b2 /\ transactions b1 = transactions b2 /\
  timestamp b1 = timestamp b2 /\ previous_hash b1 = previous_hash b2 /\
  nonce b1 = nonce b2.

(** Every block names the hash of the one before it, starting from
    [previous_hash']. *)
Fixpoint linked (previous_hash' : string) (blocks : list Block) : Prop :=
  match blocks with
  | [] => True
  | b :: rest =>
      previous_hash b = previous_hash' /\
      match hash b with
      | Some h => linked h rest
      | None => False
      end
  end.

(* ------------------------------------------------------------------ *)
(** * The views of the node *)

(** [json.dumps(value)] as the views call it, without [sort_keys]: the
    items of a dict in the order the dict holds them. *)
Fixpoint dumps_plain (value : json) : string :=
  match value with
  | JNull => "null"
  | JBool true => "true"
  | JBool false => "false"
  | JNum n => Json.number_repr n
  | JStr s => Json.encode_string s
  | JList items => ("[" ++ Json.join ", " (map dumps_plain items) ++ "]")%string
  | JDict items =>
      ("{" ++ Json.join ", "
                (map Json.render_item
                     (map (fun kv => (fst kv, dumps_plain (snd kv))) items))
           ++ "}")%string
  end.

(** [d.get(key)] on the items of a dict *)
Fixpoint dict_get (key : string) (items : list (string * json)) : option json :=
  match items with
  | [] => None
  | (k, v) :: rest => if String.eqb k key then Some v else dict_get key rest
  end.

(** [d[key] = value]: the value of a key the dict holds is replaced where it
    stands, a new key goes to the end. *)
Fixpoint dict_set (key : string) (value : json) (items : list (string * json))
  : list (string * json) :=
  match items with
  | [] => [(key, value)]
  | (k, v) :: rest =>
      if String.eqb k key then (k, value) :: rest
      else (k, v) :: dict_set key value rest
  end.

(** [not value] for what [d.get] returns on a dict read from JSON: [None],
    [False], a zero, and the empty string, list and dict are falsy. *)
Definition falsy (value : option json) : bool :=
  match value with
  | None => true
  | Some JNull => true
  | Some (JBool b) => negb b
  | Some (JNum (Int z)) => z =? 0
  | Some (JNum (Float repr)) => String.eqb repr "0.0" || String.eqb repr "-0.0"
  | Some (JStr s) => String.eqb s EmptyString
  | Some (JList items) => match items with [] => true | _ :: _ => false end
  | Some (JDict items) => match items with [] => true | _ :: _ => false end
  end.

(** The view of [POST /new_transaction]: [tx_data] is what
    [request.get_json()] gives, [now] what [time.time()] returns. *)
Definition new_transaction (tx_data : json) (now : number) (node : Node)
  : result (string * Z) * Node :=
  match tx_data with
  | JDict items =>
      if falsy (dict_get "author" items) then
        (Ok ("Invalid transaction data", 404), node)
      else if falsy (dict_get "content" items) then
        (Ok ("Invalid transaction data", 404), node)
      else
        let tx_data := JDict (dict_set "timestamp" (JNum now) items) in
        match blockchain node with
        | LedgerObject bc =>
            (Ok ("Success", 201),
             mkNode (LedgerObject (add_new_transaction bc tx_data)) (peers node))
        | LedgerList _ => (Raise AttributeError, node)
        end
  | _ => (Raise AttributeError, node)
  end.

(** The dict [get_chain] hands to [json.dumps]. *)
Definition get_chain_dict (node : Node) : result json :=
  match blockchain node with
  | LedgerObject bc =>
      let chain_data := map Block_dict (chain bc) in
      Ok (JDict [ ("length", JNum (Int (Z.of_nat (List.length chain_data))));
                  ("chain", JList chain_data);
                  ("peers", JList (map JStr (peers node))) ])
  | LedgerList _ => Raise AttributeError
  end.

(** The view of [GET /chain]. *)
Definition get_chain (node : Node) : result string :=
  match get_chain_dict node with
  | Ok d => Ok (dumps_plain d)
  | Raise e => Raise e
  end.

(** The view of [GET /pending_tx]. *)
Definition get_pending_tx (node : Node) : result string :=
  match blockchain node with
  | LedgerObject bc => Ok (dumps_plain (JList (unconfirmed_transactions bc)))
  | LedgerList _ => Raise AttributeError
  end.

(** A block dict read back from JSON, with the six keys
    [create_chain_from_dump] and [verify_and_add_block] subscript and values
    of the types a block has on the wire.  [None] is a dict outside of these
    (the code raises [KeyError] on a missing key). *)
Definition BlockData_of_dict (block_data : json) : option BlockData :=
  match block_data with
  | JDict items =>
      match dict_get "index" items, dict_get "transactions" items,
            dict_get "timestamp" items, dict_get "previous_hash" items,
            dict_get "nonce" items, dict_get "hash" items with
      | Some (JNum (Int i)), Some (JList txs), Some (JNum ts), Some (JStr ph),
        Some (JNum (Int n)), Some (JStr h) =>
          Some (mkBlockData i txs ts ph n h)
      | _, _, _, _, _, _ => None
      end
  | _ => None
  end.

Fixpoint BlockData_of_dicts (chain_data : list json) : option (list BlockData) :=
  match chain_data with
  | [] => Some []
  | block_data :: rest =>
      match BlockData_of_dict block_data, BlockData_of_dicts rest with
      | Some d, Some ds => Some (d :: ds)
      | _, _ => None
      end
  end.

(** The view of [POST /register_node]: [node_address] is
    [request.json.get('node_address')], a string or [None]. *)
Definition register_node (node_address : option string) (node : Node)
  : (string * Z) * Node :=
  match node_address with
  | Some address =>
      if String.eqb address EmptyString then
        (("Invalid node address", 400), node)
      else
        (("Node registered successfully", 200),
         mkNode (blockchain node) (set_add string_dec address (peers node)))
  | None => (("Invalid node address", 400), node)
  end.

(** [announce_new_block]: [post url data] is what [requests.post] does for
    one peer.  Returns the posts that went through, in order, and whether
    one raised. *)
Fixpoint announce_new_block (post : string -> string -> result unit)
    (peers : list string) (block : Block) : result unit * list (string * string) :=
  match peers with
  | [] => (Ok tt, [])
  | peer :: rest =>
      let url := (peer ++ "add_block")%string in
      let data := Json.dumps (Block_dict block) in
      match post url data with
      | Raise e => (Raise e, [])
      | Ok _ =>
          let (outcome, sent) := announce_new_block post rest block in
          (outcome, (url, data) :: sent)
      end
  end.

(** [len(blockchain.chain)] and [blockchain.last_block] on the global. *)
Definition ledger_last_block (l : ledger) : result Block :=
  match l with
  | LedgerObject bc => last_block bc
  | LedgerList _ => Raise AttributeError
  end.

Section Views.

Variable difficulty : nat.

(** The view of [POST /add_block]. *)
Definition verify_and_add_block (block_data : BlockData) (node : Node)
  : result (string * Z) * Node :=
  match blockchain node with
  | LedgerList _ => (Raise AttributeError, node)
  | LedgerObject bc =>
      let block := Block_init (data_index block_data)
                              (data_transactions block_data)
                              (data_timestamp block_data)
                              (data_previous_hash block_data)
                              (data_nonce block_data) in
      let proof := data_hash block_data in
      match add_block difficulty bc block proof with
      | (Raise e, bc) => (Raise e, mkNode (LedgerObject bc) (peers node))
      | (Ok false, bc) =>
          (Ok ("The block was discarded by the node", 400),
           mkNode (LedgerObject bc) (peers node))
      | (Ok true, bc) =>
          (Ok ("Block added to the chain", 201),
           mkNode (LedgerObject bc) (peers node))
      end
  end.

(** The view of [GET /mine].  [fetched] is what the peers answer to
    [consensus], [post] what [requests.post] does in [announce_new_block].
    Returns the text of the response, the globals afterwards and the posts
    that went through; the outer [option] is [None] when the search does not
    end within [fuel]. *)
Definition mine_unconfirmed_transactions (fuel : nat) (now : number)
    (fetched : list (result ChainResponse)) (post : string -> string -> result unit)
    (node : Node) : option (result string * Node * list (string * string)) :=
  match blockchain node with
  | LedgerList _ => Some (Raise AttributeError, node, [])
  | LedgerObject bc =>
      match mine difficulty fuel now bc with
      | None => None
      | Some (Raise e, bc) => Some (Raise e, mkNode (LedgerObject bc) (peers node), [])
      | Some (Ok false, bc) =>
          Some (Ok "No transactions to mine", mkNode (LedgerObject bc) (peers node), [])
      | Some (Ok true, bc) =>
          let node := mkNode (LedgerObject bc) (peers node) in
          let chain_length := Z.of_nat (List.length (chain bc)) in
          match consensus difficulty fetched node with
          | (Raise e, node) => Some (Raise e, node, [])
          | (Ok _, node) =>
              match ledger_chain_len (blockchain node) with
              | Raise e => Some (Raise e, node, [])
              | Ok new_length =>
                  let announced :=
                    if chain_length =? new_length then
                      match ledger_last_block (blockchain node) with
                      | Raise e => (Raise e, [])
                      | Ok tip => announce_new_block post (peers node) tip
                      end
                    else (Ok tt, []) in
                  match announced with
                  | (Raise e, sent) => Some (Raise e, node, sent)
                  | (Ok _, sent) =>
                      match ledger_last_block (blockchain node) with
                      | Raise e => Some (Raise e, node, sent)
                      | Ok tip =>
                          Some (Ok ("Block #" ++ Json.number_repr (Int (index tip))
                                    ++ " is mined.")%string,
                                node, sent)
                      end
                  end
              end
          end
      end
  end.

(** The ledgers the views lead to from the initial one:
    [new_transaction] stores a record, [verify_and_add_block] offers a block
    built from a dict, [mine] runs. *)
Inductive reachable : Blockchain -> Prop :=
  | reach_initial : reachable initial_blockchain
  | reach_transaction (self : Blockchain) (transaction : json) :
      reachable self -> reachable (add_new_transaction self transaction)
  | reach_add_block (self : Blockchain) (block_data : BlockData) :
      reachable self ->
      reachable (snd (add_block difficulty self (of_data block_data)
                                (data_hash block_data)))
  | reach_mine (self : Blockchain) (fuel : nat) (now : number)
      (outcome : result bool) (self' : Blockchain) :
      reachable self ->
      mine difficulty fuel now self = Some (outcome, self') ->
      reachable self'.

(** A block that carries a hash which is a valid proof for its other
    fields: what [check_chain_validity] asks of each block. *)
Definition sealed (b : Block) : Prop :=
  exists h, hash b = Some h /\ is_valid_proof difficulty (delattr_hash b) h = true.

End Views.

(** The ledger after [mine] has run on [blockchain_with_pool]. *)
Definition mined_blockchain : Blockchain := mkBlockchain [] [genesis_block; block_1].

(** A node with the two peers the source names, a record in its pool, and
    a network on which every post goes through. *)
Definition node_with_peers : Node :=
  mkNode (LedgerObject blockchain_with_pool)
         [ "http://10.253.55.151:8000/"; "http://10.253.19.173:8000/" ].

Definition post_ok (url data : string) : result unit := Ok tt.

(** The body of a [POST /new_transaction] that carries a timestamp of its
    own. *)
Definition tx_items : list (string * json) :=
  [ ("author", JStr "a"); ("timestamp", JNum (Int 0)); ("content", JStr "hi") ].

(** The answer of a peer that holds the initial chain, and of one that
    reports three blocks. *)
Definition initial_chain_response : ChainResponse :=
  mkChainResponse 1 [ to_data genesis_block genesis_digest ].

Definition longer_chain_response : ChainResponse :=
  mkChainResponse 3 [ to_data genesis_block genesis_digest; to_data block_1 digest_1;
                      to_data mined_second "x" ].

Definition rejected_response : RegisterResponse :=
  mkRegisterResponse 404 "not found" [] [].

Definition honest_response : RegisterResponse :=
  mkRegisterResponse 200 EmptyString honest_dump [ "http://10.253.19.173:8000/" ].

(** A peer that answers and does not report more blocks than [current_len]:
    the loop of [consensus] passes it over. *)
Definition not_longer (current_len : Z) (fetch : result ChainResponse) : Prop :=
  exists response, fetch = Ok response /\ response_length response <= current_len.

(** The hash the next block has to name after [blocks], which follow a block
    of hash [h]. *)
Definition final_hash (h : string) (blocks : list Block) : string :=
  fold_left (fun acc b => match hash b with Some x => x | None => acc end)
            blocks h.

(** The digest of the genesis fields. *)
Definition genesis_hash : string := compute_hash (Block_init 0 [] (Int 0) "0" 0).

(** The ledger invariant: the chain starts with the local genesis block, the
    blocks after it are linked from its hash and each is sealed. *)
Definition ledger_ok (difficulty : nat) (self : Blockchain) : Prop :=
  exists rest,
    chain self = genesis_block :: rest /\
    linked genesis_hash rest /\
    Forall (sealed difficulty) rest.

(* ------------------------------------------------------------------ *)
(** * The library functions on known inputs *)

Example sha256_abc :
  SHA256.hexdigest "abc"
  = "ba7816bf8f01cfea414140de5dae2223b00361a396177a9cb410ff61f20015ad".
Proof. vm_compute. reflexivity. Qed.

Example sha256_empty :
  SHA256.hexdigest EmptyString
  = "e3b0c44298fc1c149afbf4c8996fb92427ae41e4649b934ca495991b7852b855".
Proof. vm_compute. reflexivity. Qed.

Example sha256_two_blocks :
  SHA256.hexdigest "abcdbcdecdefdefgefghfghighijhijkijkljklmklmnlmnomnopnopq"
  = "248d6a61d20638b8e5c026930c3e6039a33ce45964ff2167f6ecedd419db06c1".
Proof. vm_compute. reflexivity. Qed.

(** Keys come out sorted, nested values keep the default separators. *)
Example dumps_sorts_keys :
  Json.dumps (JDict [ ("b", JList [JNum (Int (-12)); JNull; JBool true]);
                      ("a", JDict []); ("B", JNum (Float "0.5")) ])
  = String "{" (String Json.dquote ("B" ++ String Json.dquote (": 0.5, "
      ++ String Json.dquote ("a" ++ String Json.dquote (": {}, "
      ++ String Json.dquote ("b" ++ String Json.dquote
           ": [-12, null, true]}"))))))%string.
Proof. vm_compute. reflexivity. Qed.

Example genesis_block_digest :
  hash genesis_block = Some genesis_digest.
Proof. vm_compute. reflexivity. Qed.

Example candidate_1_search :
  proof_of_work Blockchain_difficulty 3 candidate_1
  = Some (digest_1, set_nonce candidate_1 3).
Proof. vm_compute. reflexivity. Qed.

Example candidate_1_search_short_of_fuel :
  proof_of_work Blockchain_difficulty 2 candidate_1 = None.
Proof. vm_compute. reflexivity. Qed.

(* ------------------------------------------------------------------ *)
(** * Strings *)

Lemma startswith_get (p s : string) :
  startswith s p = true ->
  forall i, (i < String.length p)%nat -> String.get i s = String.get i p.
Proof.
  unfold startswith. revert s.
  induction p as [|a p IH]; intros s Hp i Hi; simpl in Hi; [lia|].
  destruct s as [|b s]; simpl in Hp; [discriminate|].
  destruct (ascii_dec a b) as [->|]; [|discriminate].
  destruct i as [|i]; simpl; [reflexivity|].
  apply IH; [assumption|lia].
Qed.

Lemma str_mul_zero_length (n : nat) : String.length (str_mul "0" n) = n.
Proof. induction n as [|n IH]; simpl; [reflexivity|now rewrite IH]. Qed.

Lemma str_mul_zero_get (n i : nat) :
  (i < n)%nat -> String.get i (str_mul "0" n) = Some "0"%char.
Proof.
  revert i. induction n as [|n IH]; intros i Hi; [lia|].
  destruct i as [|i]; simpl; [reflexivity|]. apply IH. lia.
Qed.

(** A string that starts with ['0' * n] has the zero character at each of
    its first [n] places. *)
Lemma startswith_zeros (s : string) (n : nat) :
  startswith s (str_mul "0" n) = true ->
  forall i, (i < n)%nat -> String.get i s = Some "0"%char.
Proof.
  intros H i Hi.
  rewrite (startswith_get _ _ H i) by (rewrite str_mul_zero_length; exact Hi).
  now apply str_mul_zero_get.
Qed.

(* ------------------------------------------------------------------ *)
(** * Blocks *)

Lemma set_nonce_same (b : Block) : set_nonce b (nonce b) = b.
Proof. destruct b; reflexivity. Qed.

Lemma set_nonce_twice (b : Block) (n m : Z) :
  set_nonce (set_nonce b n) m = set_nonce b m.
Proof. reflexivity. Qed.

Lemma delattr_set_hash (b : Block) (h : string) :
  hash b = Some h -> set_hash (delattr_hash b) h = b.
Proof. destruct b; simpl; intros ->; reflexivity. Qed.

Lemma last_block_snoc (self : Blockchain) (c : list Block) (b : Block) :
  last_block (set_chain self (c ++ [b])) = Ok b.
Proof. unfold last_block; simpl. now rewrite rev_unit. Qed.

(* ------------------------------------------------------------------ *)
(** * Proof of work *)

Section ProofOfWork.

Variable difficulty : nat.

(** One turn of the loop. *)
Lemma proof_of_work_loop_eq (fuel : nat) (block : Block) (computed_hash : string) :
  proof_of_work_loop difficulty fuel block computed_hash
  = if startswith computed_hash (str_mul "0" difficulty) then
      Some (computed_hash, block)
    else
      match fuel with
      | O => None
      | S fuel' =>
          proof_of_work_loop difficulty fuel' (set_nonce block (nonce block + 1))
            (compute_hash (set_nonce block (nonce block + 1)))
      end.
Proof. destruct fuel; reflexivity. Qed.

(** Invariant of the loop: [computed_hash] is the digest of [block] as it
    stands, and only [nonce] moves, upwards. *)
Lemma proof_of_work_loop_spec (fuel : nat) :
  forall (block : Block) (computed_hash : string) (proof : string) (sealed : Block),
    computed_hash = compute_hash block ->
    proof_of_work_loop difficulty fuel block computed_hash = Some (proof, sealed) ->
    startswith proof (str_mul "0" difficulty) = true /\
    proof = compute_hash sealed /\
    sealed = set_nonce block (nonce sealed) /\
    nonce block <= nonce sealed.
Proof.
  induction fuel as [|fuel IH]; intros block computed_hash proof sealed Hh Hrun;
    rewrite proof_of_work_loop_eq in Hrun;
    destruct (startswith computed_hash (str_mul "0" difficulty)) eqn:Hgoal.
  - injection Hrun as <- <-.
    repeat split; [exact Hgoal|exact Hh|now rewrite set_nonce_same|lia].
  - discriminate.
  - injection Hrun as <- <-.
    repeat split; [exact Hgoal|exact Hh|now rewrite set_nonce_same|lia].
  - apply IH in Hrun; [|reflexivity].
    destruct Hrun as (Hz & Hd & Hs & Hn).
    rewrite set_nonce_twice in Hs. cbn [nonce set_nonce] in Hn.
    repeat split; [exact Hz|exact Hd|exact Hs|lia].
Qed.

(** The loop ends as soon as it has fuel to reach a nonce whose digest has
    the prefix. *)
Lemma proof_of_work_loop_ends (k : nat) :
  forall (block : Block) (fuel : nat),
    startswith (compute_hash (set_nonce block (nonce block + Z.of_nat k)))
               (str_mul "0" difficulty) = true ->
    (k <= fuel)%nat ->
    exists proof sealed,
      proof_of_work_loop difficulty fuel block (compute_hash block) = Some (proof, sealed).
Proof.
  induction k as [|k IH]; intros block fuel Hk Hfuel;
    rewrite proof_of_work_loop_eq.
  - replace (nonce block + Z.of_nat 0) with (nonce block) in Hk by lia.
    rewrite set_nonce_same in Hk. rewrite Hk. now exists (compute_hash block), block.
  - destruct (startswith (compute_hash block) (str_mul "0" difficulty)) eqn:Hnow.
    + now exists (compute_hash block), block.
    + destruct fuel as [|fuel]; [lia|].
      apply IH; [|lia].
      rewrite set_nonce_twice. cbn [nonce set_nonce].
      replace (nonce block + 1 + Z.of_nat k) with (nonce block + Z.of_nat (S k)) by lia.
      exact Hk.
Qed.

(** If some nonce [k >= 0] gives a digest with the prefix, the search
    returns whenever it may run its body [k] times. *)
Lemma proof_of_work_ends (k fuel : nat) (block : Block) :
  startswith (compute_hash (set_nonce block (Z.of_nat k))) (str_mul "0" difficulty) = true ->
  (k <= fuel)%nat ->
  exists proof sealed, proof_of_work difficulty fuel block = Some (proof, sealed).
Proof.
  intros Hk Hfuel. unfold proof_of_work.
  apply (proof_of_work_loop_ends k); [|exact Hfuel].
  rewrite set_nonce_twice. cbn [nonce set_nonce]. exact Hk.
Qed.

Lemma proof_of_work_spec (fuel : nat) (block : Block) (proof : string) (sealed : Block) :
  proof_of_work difficulty fuel block = Some (proof, sealed) ->
  startswith proof (str_mul "0" difficulty) = true /\
  proof = compute_hash sealed /\
  sealed = set_nonce block (nonce sealed) /\
  0 <= nonce sealed.
Proof.
  unfold proof_of_work. intros Hrun.
  apply proof_of_work_loop_spec in Hrun; [|reflexivity].
  destruct Hrun as (Hz & Hd & Hs & Hn).
  rewrite set_nonce_twice in Hs. cbn [nonce set_nonce] in Hn. auto.
Qed.

(** The block the search hands back differs from the candidate in its nonce
    at most. *)
Lemma proof_of_work_fields (fuel : nat) (block : Block) (proof : string) (sealed : Block) :
  proof_of_work difficulty fuel block = Some (proof, sealed) ->
  index sealed = index block /\
  transactions sealed = transactions block /\
  timestamp sealed = timestamp block /\
  previous_hash sealed = previous_hash block /\
  hash sealed = hash block.
Proof.
  intros Hrun. apply proof_of_work_spec in Hrun.
  destruct Hrun as (_ & _ & -> & _). simpl. repeat split.
Qed.

(** C9 -- sealing correctness.  Whenever the proof-of-work search returns,
    for any candidate and any difficulty, each of the first [difficulty]
    characters of the digest it returns is the zero character, and that
    digest is [compute_hash] of the candidate with its nonce set to the
    value the search settled on (a value [>= 0], which is the nonce the
    candidate holds afterwards). *)
Theorem proof_of_work_sealing_correct
    (fuel : nat) (block : Block) (proof : string) (sealed : Block) :
  proof_of_work difficulty fuel block = Some (proof, sealed) ->
  (forall i, (i < difficulty)%nat -> String.get i proof = Some "0"%char) /\
  proof = compute_hash (set_nonce block (nonce sealed)) /\
  sealed = set_nonce block (nonce sealed) /\
  0 <= nonce sealed.
Proof.
  intros Hrun. apply proof_of_work_spec in Hrun.
  destruct Hrun as (Hz & Hd & Hs & Hn).
  repeat split; [|now rewrite <- Hs|exact Hs|exact Hn].
  now apply startswith_zeros.
Qed.

(** C8, as the code has it.  The search writes the nonce into the candidate
    it is given: when it returns, the candidate holds the nonce the search
    settled on; its index, transactions, timestamp and previous_hash are as
    before and the search has not touched the hash attribute.  The hash is
    assigned afterwards, by [add_block]. *)
Theorem proof_of_work_changes_nonce_only
    (fuel : nat) (block : Block) (proof : string) (sealed : Block) :
  proof_of_work difficulty fuel block = Some (proof, sealed) ->
  sealed = set_nonce block (nonce sealed) /\
  index sealed = index block /\
  transactions sealed = transactions block /\
  timestamp sealed = timestamp block /\
  previous_hash sealed = previous_hash block /\
  hash sealed = hash block.
Proof.
  intros Hrun. split.
  - now apply proof_of_work_spec in Hrun.
  - exact (proof_of_work_fields fuel block proof sealed Hrun).
Qed.

End ProofOfWork.

(* ------------------------------------------------------------------ *)
(** * The ledger: append, mine, validate *)

Section Ledger.

Variable difficulty : nat.

Lemma is_valid_proof_true (block : Block) (proof : string) :
  is_valid_proof difficulty block proof = true <->
  startswith proof (str_mul "0" difficulty) = true /\ proof = compute_hash block.
Proof.
  unfold is_valid_proof. rewrite andb_true_iff, String.eqb_eq. reflexivity.
Qed.

Lemma is_valid_proof_false (block : Block) (proof : string) :
  is_valid_proof difficulty block proof = false <->
  startswith proof (str_mul "0" difficulty) = false \/ proof <> compute_hash block.
Proof.
  unfold is_valid_proof. rewrite andb_false_iff, String.eqb_neq. reflexivity.
Qed.

(** [add_block] on a ledger whose tip carries a hash, by cases. *)
Lemma add_block_cases (self : Blockchain) (tip : Block) (tip_hash : string)
    (block : Block) (proof : string) :
  last_block self = Ok tip ->
  hash tip = Some tip_hash ->
  add_block difficulty self block proof =
    if String.eqb tip_hash (previous_hash block)
       && is_valid_proof difficulty block proof
    then (Ok true, set_chain self (chain self ++ [set_hash block proof]))
    else (Ok false, self).
Proof.
  intros Htip Hhash. unfold add_block, getattr_hash. rewrite Htip, Hhash.
  destruct (String.eqb tip_hash (previous_hash block)); simpl; [|reflexivity].
  destruct (is_valid_proof difficulty block proof); reflexivity.
Qed.

(** Without a tip that carries a hash there is no verdict: the read of
    [self.last_block.hash] raises, and the ledger is as before. *)
Lemma add_block_raises (self : Blockchain) (block : Block) (proof : string) :
  (last_block self = Raise IndexError \/
   exists tip, last_block self = Ok tip /\ hash tip = None) ->
  exists e, add_block difficulty self block proof = (Raise e, self).
Proof.
  unfold add_block, getattr_hash. intros [H|(tip & H & Hh)]; rewrite H.
  - now exists IndexError.
  - rewrite Hh. now exists AttributeError.
Qed.

(** C3 -- append gating.  On a ledger whose tip carries a hash, for every
    block and claimed hash: [add_block] returns False and leaves the ledger
    as it was when the claimed hash lacks the ['0' * difficulty] prefix, when
    it is not the recomputed digest [block.compute_hash()], or when
    [block.previous_hash] is not the hash of the tip; otherwise it assigns
    the claimed hash to [block.hash], appends the block and returns True, and
    the tip is then this block. *)
Theorem add_block_gating (self : Blockchain) (tip : Block) (tip_hash : string)
    (block : Block) (proof : string) :
  last_block self = Ok tip ->
  hash tip = Some tip_hash ->
  (startswith proof (str_mul "0" difficulty) = false \/
   proof <> compute_hash block \/
   previous_hash block <> tip_hash ->
   add_block difficulty self block proof = (Ok false, self)) /\
  (startswith proof (str_mul "0" difficulty) = true ->
   proof = compute_hash block ->
   previous_hash block = tip_hash ->
   let appended := set_chain self (chain self ++ [set_hash block proof]) in
   add_block difficulty self block proof = (Ok true, appended) /\
   last_block appended = Ok (set_hash block proof) /\
   hash (set_hash block proof) = Some proof).
Proof.
  intros Htip Hhash. rewrite (add_block_cases self tip tip_hash) by assumption.
  split.
  - intros Hbad.
    destruct (String.eqb tip_hash (previous_hash block)) eqn:Hlink; [|reflexivity].
    apply String.eqb_eq in Hlink.
    destruct (is_valid_proof difficulty block proof) eqn:Hvalid; [|reflexivity].
    apply is_valid_proof_true in Hvalid. destruct Hvalid as [Hz Hd].
    destruct Hbad as [Hbad|[Hbad|Hbad]]; [congruence|contradiction|].
    now symmetry in Hlink.
  - intros Hz Hd Hlink appended.
    assert (Hvalid : is_valid_proof difficulty block proof = true)
      by (apply is_valid_proof_true; auto).
    rewrite Hvalid. rewrite <- Hlink, String.eqb_refl. simpl.
    repeat split. apply last_block_snoc.
Qed.

(** Once the search has returned inside [mine], the append that follows
    succeeds. *)
Lemma mine_append_succeeds (fuel : nat) (now : number) (self : Blockchain)
    (tip : Block) (tip_hash proof : string) (sealed : Block) :
  last_block self = Ok tip ->
  hash tip = Some tip_hash ->
  proof_of_work difficulty fuel (mine_candidate self tip tip_hash now)
    = Some (proof, sealed) ->
  add_block difficulty self sealed proof
    = (Ok true, set_chain self (chain self ++ [set_hash sealed proof])).
Proof.
  intros Htip Hhash Hrun.
  destruct (proof_of_work_spec _ _ _ _ _ Hrun) as (Hz & Hd & Hs & _).
  rewrite (add_block_cases self tip tip_hash) by assumption.
  assert (Hvalid : is_valid_proof difficulty sealed proof = true)
    by (apply is_valid_proof_true; auto).
  rewrite Hvalid, Hs. simpl. rewrite String.eqb_refl. reflexivity.
Qed.

(** C4 -- pool and chain under [mine].  With an empty pool, [mine] returns
    False and the ledger is as before.  With a non-empty pool, a run that
    returns has returned True, has appended exactly one block, whose
    transactions are the records the pool held when [mine] was called, and
    has left the pool empty; a run that raises has changed nothing.  So the
    pool is emptied only when the block was appended and the value returned
    tells whether it was.  And [mine] does return in this way when the tip
    carries a hash and some nonce [k] within the allowed number of
    iterations gives a digest with the prefix. *)
Theorem mine_pool_and_chain (fuel : nat) (now : number) (self : Blockchain) :
  (unconfirmed_transactions self = [] ->
   mine difficulty fuel now self = Some (Ok false, self)) /\
  (forall outcome self',
     unconfirmed_transactions self <> [] ->
     mine difficulty fuel now self = Some (outcome, self') ->
     (outcome = Ok true /\
      unconfirmed_transactions self' = [] /\
      exists new_block,
        chain self' = chain self ++ [new_block] /\
        transactions new_block = unconfirmed_transactions self) \/
     (exists e, outcome = Raise e /\ self' = self)) /\
  (forall tip tip_hash k,
     unconfirmed_transactions self <> [] ->
     last_block self = Ok tip ->
     hash tip = Some tip_hash ->
     startswith (compute_hash (set_nonce (mine_candidate self tip tip_hash now)
                                         (Z.of_nat k)))
                (str_mul "0" difficulty) = true ->
     (k <= fuel)%nat ->
     exists new_block,
       mine difficulty fuel now self
         = Some (Ok true, mkBlockchain [] (chain self ++ [new_block])) /\
       transactions new_block = unconfirmed_transactions self /\
       index new_block = index tip + 1 /\
       previous_hash new_block = tip_hash /\
       timestamp new_block = now).
Proof.
  split; [|split].
  - intros Hempty. unfold mine. rewrite Hempty. reflexivity.
  - intros outcome self' Hpool Hrun. unfold mine in Hrun.
    destruct (unconfirmed_transactions self) as [|tx pool] eqn:Hp; [congruence|].
    destruct (last_block self) as [tip|e] eqn:Htip.
    2:{ injection Hrun as <- <-. right. now exists e. }
    unfold getattr_hash in Hrun.
    destruct (hash tip) as [tip_hash|] eqn:Hhash.
    2:{ injection Hrun as <- <-. right. now exists AttributeError. }
    destruct (proof_of_work difficulty fuel
                (Block_init (index tip + 1) (tx :: pool) now tip_hash 0))
      as [[proof sealed]|] eqn:Hpow; [|discriminate].
    assert (Hpow' : proof_of_work difficulty fuel
                      (mine_candidate self tip tip_hash now) = Some (proof, sealed))
      by (unfold mine_candidate; rewrite Hp; exact Hpow).
    rewrite (mine_append_succeeds fuel now self tip tip_hash proof sealed
               Htip Hhash Hpow') in Hrun.
    injection Hrun as <- <-. left. repeat split.
    exists (set_hash sealed proof). split; [reflexivity|]. simpl.
    destruct (proof_of_work_fields _ _ _ _ _ Hpow) as (_ & Ht & _).
    exact Ht.
  - intros tip tip_hash k Hpool Htip Hhash Hk Hfuel.
    destruct (proof_of_work_ends difficulty k fuel _ Hk Hfuel) as (proof & sealed & Hpow).
    exists (set_hash sealed proof).
    destruct (proof_of_work_fields _ _ _ _ _ Hpow) as (Hi & Ht & Hts & Hph & _).
    repeat split; try assumption.
    unfold mine. unfold getattr_hash.
    destruct (unconfirmed_transactions self) as [|tx pool] eqn:Hp; [congruence|].
    rewrite Htip, Hhash.
    assert (Hpow' : proof_of_work difficulty fuel
                      (Block_init (index tip + 1) (tx :: pool) now tip_hash 0)
                    = Some (proof, sealed))
      by (unfold mine_candidate in Hpow; rewrite Hp in Hpow; exact Hpow).
    rewrite Hpow'.
    rewrite (mine_append_succeeds fuel now self tip tip_hash proof sealed
               Htip Hhash Hpow).
    reflexivity.
Qed.

(** The loop of [check_chain_validity] puts back every hash it removed on
    the way to the verdict True. *)
Lemma check_chain_validity_from_restores (chain : list pyobj) :
  forall (previous_hash' : string) (after : list pyobj),
    check_chain_validity_from difficulty previous_hash' chain = (Ok true, after) ->
    after = chain.
Proof.
  induction chain as [|[block|d] rest IH]; intros previous_hash' after Hrun;
    simpl in Hrun.
  - now injection Hrun as <-.
  - unfold getattr_hash in Hrun.
    destruct (hash block) as [block_hash|] eqn:Hhash; [|discriminate].
    match type of Hrun with
    | context [if ?guard then _ else _] => destruct guard
    end; [discriminate|].
    destruct (check_chain_validity_from difficulty block_hash rest)
      as [verdict rest'] eqn:Hrest.
    injection Hrun as -> <-.
    rewrite (IH _ _ Hrest), (delattr_set_hash block block_hash Hhash).
    reflexivity.
  - discriminate.
Qed.

(** C7, as the code has it.  [check_chain_validity] removes the hash
    attribute from each live block before it recomputes the digest and puts
    it back once the block has passed; when the verdict is True, every block
    of the sequence holds the same field values, hash included, as before
    the check. *)
Theorem check_chain_validity_true_restores (blocks : list Block) (after : list pyobj) :
  check_chain_validity difficulty (map PBlock blocks) = (Ok true, after) ->
  after = map PBlock blocks.
Proof.
  unfold check_chain_validity. apply check_chain_validity_from_restores.
Qed.

(** A list of dicts, as a peer sends it, gets the verdict True only when
    it is empty: reading [block.hash] on the first dict raises. *)
Lemma check_chain_validity_dicts (dump : list BlockData) (after : list pyobj) :
  check_chain_validity difficulty (map PDict dump) = (Ok true, after) ->
  dump = [] /\ after = [].
Proof.
  destruct dump as [|d rest]; simpl; intros Hrun.
  - injection Hrun as <-. auto.
  - discriminate.
Qed.

(** The ledgers the node goes through all have a tip that carries a hash:
    the initial one has, and [add_new_transaction], [add_block] and [mine]
    keep it so. *)
Lemma initial_blockchain_has_sealed_tip : has_sealed_tip initial_blockchain.
Proof. exists genesis_block, (compute_hash (Block_init 0 [] (Int 0) "0" 0)). split; reflexivity. Qed.

Lemma add_new_transaction_keeps_sealed_tip (self : Blockchain) (transaction : json) :
  has_sealed_tip self -> has_sealed_tip (add_new_transaction self transaction).
Proof. intros H. exact H. Qed.

Lemma add_block_keeps_sealed_tip (self : Blockchain) (block : Block) (proof : string) :
  has_sealed_tip self ->
  has_sealed_tip (snd (add_block difficulty self block proof)).
Proof.
  intros (tip & tip_hash & Htip & Hhash).
  rewrite (add_block_cases self tip tip_hash) by assumption.
  destruct (String.eqb tip_hash (previous_hash block)
            && is_valid_proof difficulty block proof); simpl.
  - exists (set_hash block proof), proof. split; [apply last_block_snoc|reflexivity].
  - now exists tip, tip_hash.
Qed.

Lemma mine_keeps_sealed_tip (fuel : nat) (now : number) (self self' : Blockchain)
    (outcome : result bool) :
  has_sealed_tip self ->
  mine difficulty fuel now self = Some (outcome, self') ->
  has_sealed_tip self'.
Proof.
  intros Hwf Hrun. pose proof Hwf as (tip & tip_hash & Htip & Hhash).
  unfold mine, getattr_hash in Hrun. rewrite Htip, Hhash in Hrun.
  destruct (unconfirmed_transactions self) as [|tx pool] eqn:Hp.
  - injection Hrun as <- <-. exact Hwf.
  - destruct (proof_of_work difficulty fuel _) as [[proof sealed]|]; [|discriminate].
    pose proof (add_block_keeps_sealed_tip self sealed proof Hwf) as Hkept.
    destruct (add_block difficulty self sealed proof) as [[verdict|e] grown];
      injection Hrun as <- <-; exact Hkept.
Qed.

End Ledger.

(* ------------------------------------------------------------------ *)
(** * The digest and the hash attribute *)

(** The text that is hashed for a block without a hash attribute: the five
    fields of [__init__], keys in sorted order. *)
Lemma block_string_without_hash (b : Block) :
  hash b = None ->
  Json.dumps (Block_dict b)
  = ("{" ++ Json.join ", " (map Json.render_item
        [ ("index", Json.number_repr (Int (index b)));
          ("nonce", Json.number_repr (Int (nonce b)));
          ("previous_hash", Json.encode_string (previous_hash b));
          ("timestamp", Json.number_repr (timestamp b));
          ("transactions", Json.dumps (JList (transactions b))) ])
     ++ "}")%string.
Proof.
  destruct b as [i t ts p n h]; cbn [hash index nonce previous_hash timestamp transactions].
  intros ->. lazy -[Json.number_repr Json.encode_string]. reflexivity.
Qed.

(** With a hash attribute the text has one more item, the hash, in front. *)
Lemma block_string_with_hash (b : Block) (h : string) :
  hash b = Some h ->
  Json.dumps (Block_dict b)
  = ("{" ++ Json.join ", " (map Json.render_item
        [ ("hash", Json.encode_string h);
          ("index", Json.number_repr (Int (index b)));
          ("nonce", Json.number_repr (Int (nonce b)));
          ("previous_hash", Json.encode_string (previous_hash b));
          ("timestamp", Json.number_repr (timestamp b));
          ("transactions", Json.dumps (JList (transactions b))) ])
     ++ "}")%string.
Proof.
  destruct b as [i t ts p n h']; cbn [hash index nonce previous_hash timestamp transactions].
  intros ->. lazy -[Json.number_repr Json.encode_string]. reflexivity.
Qed.

Lemma encode_string_hash :
  Json.encode_string "hash"
  = String Json.dquote ("hash" ++ String Json.dquote EmptyString)%string.
Proof. vm_compute. reflexivity. Qed.

Lemma encode_string_index :
  Json.encode_string "index"
  = String Json.dquote ("index" ++ String Json.dquote EmptyString)%string.
Proof. vm_compute. reflexivity. Qed.

(** The text that starts with the hash item is not the canonical text: they
    part at their third character. *)
Lemma text_with_hash_differs (b : Block) (h : string) :
  render_items (("hash", Json.encode_string h) :: canonical_items b)
  <> canonical_text b.
Proof.
  intros Heq. apply (f_equal (String.get 2)) in Heq. revert Heq.
  unfold canonical_text, render_items, canonical_items.
  cbn [map Json.join]. unfold Json.render_item. cbn [fst snd].
  rewrite encode_string_hash, encode_string_index.
  cbn [String.append String.get]. discriminate.
Qed.

(** C5, as the code has it.  [compute_hash] is the SHA-256 digest of
    [json.dumps(self.__dict__, sort_keys=True)], the text of every attribute
    the block carries.  For a block without hash attribute that text is the
    canonical one, made of index, nonce, previous_hash, timestamp and
    transactions only.  For a block that carries a hash attribute the text
    holds the hash item as well, in front of the five, and is never the
    canonical text: the digest then takes the hash in.  The code calls
    [compute_hash] on blocks without hash attribute, before [block.hash] is
    assigned or after [delattr(block, "hash")]; the digest of a block with
    its hash removed is the digest of its canonical text, so two blocks that
    agree on the five fields and carry no hash have the same digest. *)
Theorem compute_hash_digest_input (b : Block) :
  (hash b = None ->
   Json.dumps (Block_dict b) = canonical_text b /\
   compute_hash b = SHA256.hexdigest (canonical_text b)) /\
  (forall h, hash b = Some h ->
   Json.dumps (Block_dict b)
     = render_items (("hash", Json.encode_string h) :: canonical_items b) /\
   Json.dumps (Block_dict b) <> canonical_text b /\
   compute_hash b
     = SHA256.hexdigest
         (render_items (("hash", Json.encode_string h) :: canonical_items b))) /\
  compute_hash (delattr_hash b) = SHA256.hexdigest (canonical_text b) /\
  (forall b', same_init_fields b b' -> hash b = None -> hash b' = None ->
              compute_hash b = compute_hash b').
Proof.
  assert (Hplain : forall c, hash c = None ->
            Json.dumps (Block_dict c) = canonical_text c)
    by (intros c Hc; exact (block_string_without_hash c Hc)).
  assert (Hcanon : forall c c', same_init_fields c c' ->
            canonical_text c = canonical_text c').
  { intros c c' (Hi & Ht & Hts & Hp & Hn).
    unfold canonical_text, canonical_items. now rewrite Hi, Ht, Hts, Hp, Hn. }
  split; [|split; [|split]].
  - intros Hb. split; [now apply Hplain|].
    unfold compute_hash. now rewrite (Hplain b Hb).
  - intros h Hb.
    pose proof (block_string_with_hash b h Hb) as Htext.
    split; [exact Htext|]. split.
    + rewrite Htext. apply text_with_hash_differs.
    + unfold compute_hash. now rewrite Htext.
  - unfold compute_hash. rewrite (Hplain (delattr_hash b) eq_refl).
    reflexivity.
  - intros b' Hsame Hb Hb'. unfold compute_hash.
    rewrite (Hplain b Hb), (Hplain b' Hb'). f_equal. now apply Hcanon.
Qed.

(* ------------------------------------------------------------------ *)
(** * Rebuilding a chain from a dump, registration, consensus *)

Section Node.

Variable difficulty : nat.

Lemma create_chain_from_dump_loop_idx (rest : list BlockData) :
  forall (generated : Blockchain) (n : nat),
    create_chain_from_dump_loop difficulty generated (S n) rest
    = create_chain_from_dump_loop difficulty generated 1 rest.
Proof.
  induction rest as [|block_data rest IH]; intros generated n; simpl; [reflexivity|].
  destruct (add_block difficulty generated _ (data_hash block_data))
    as [[[|]|e] generated']; try reflexivity.
  now rewrite (IH generated' (S n)), (IH generated' 1%nat).
Qed.

Lemma create_chain_from_dump_cons (first : BlockData) (rest : list BlockData) :
  create_chain_from_dump difficulty (first :: rest)
  = create_chain_from_dump_loop difficulty initial_blockchain 1 rest.
Proof. reflexivity. Qed.

Lemma create_chain_from_dump_loop_step (generated : Blockchain)
    (block_data : BlockData) (rest : list BlockData) :
  create_chain_from_dump_loop difficulty generated 1 (block_data :: rest)
  = match add_block difficulty generated (of_data block_data) (data_hash block_data) with
    | (Raise e, _) => Raise e
    | (Ok false, _) => Raise tampered
    | (Ok true, generated') =>
        create_chain_from_dump_loop difficulty generated' 1 rest
    end.
Proof.
  simpl. unfold of_data, tampered.
  destruct (add_block difficulty generated _ (data_hash block_data))
    as [[[|]|e] generated']; try reflexivity.
  apply create_chain_from_dump_loop_idx.
Qed.

Lemma create_chain_from_dump_loop_app (accepted rest : list BlockData) :
  forall generated : Blockchain,
    create_chain_from_dump_loop difficulty generated 1 (accepted ++ rest)
    = match create_chain_from_dump_loop difficulty generated 1 accepted with
      | Ok generated' => create_chain_from_dump_loop difficulty generated' 1 rest
      | Raise e => Raise e
      end.
Proof.
  induction accepted as [|block_data accepted IH]; intros generated.
  - reflexivity.
  - rewrite <- app_comm_cons, !create_chain_from_dump_loop_step.
    destruct (add_block difficulty generated (of_data block_data) (data_hash block_data))
      as [[[|]|e] generated']; try reflexivity.
    apply IH.
Qed.

(** What a completed reconstruction has built on top of a ledger whose tip
    carries the hash [tip_hash]. *)
Lemma create_chain_from_dump_loop_ok (rest : list BlockData) :
  forall (generated rebuilt : Blockchain) (tip : Block) (tip_hash : string),
    last_block generated = Ok tip ->
    hash tip = Some tip_hash ->
    create_chain_from_dump_loop difficulty generated 1 rest = Ok rebuilt ->
    chain rebuilt = chain generated ++ map sealed_of_data rest /\
    linked tip_hash (map sealed_of_data rest) /\
    Forall (fun block_data =>
              is_valid_proof difficulty (of_data block_data) (data_hash block_data) = true)
           rest.
Proof.
  induction rest as [|block_data rest IH];
    intros generated rebuilt tip tip_hash Htip Hhash Hrun.
  - simpl in Hrun. injection Hrun as <-. simpl. rewrite app_nil_r. auto.
  - rewrite create_chain_from_dump_loop_step in Hrun.
    rewrite (add_block_cases difficulty generated tip tip_hash) in Hrun by assumption.
    destruct (String.eqb tip_hash (previous_hash (of_data block_data))) eqn:Hlink;
      simpl in Hrun; [|discriminate].
    destruct (is_valid_proof difficulty (of_data block_data) (data_hash block_data))
      eqn:Hvalid; [|discriminate].
    apply String.eqb_eq in Hlink.
    apply (IH _ _ (sealed_of_data block_data) (data_hash block_data)) in Hrun;
      [|apply last_block_snoc|reflexivity].
    destruct Hrun as (Hchain & Hlinked & Hall). simpl in Hchain.
    repeat split.
    + rewrite Hchain, <- app_assoc. reflexivity.
    + now symmetry.
    + exact Hlinked.
    + constructor; assumption.
Qed.

Lemma initial_blockchain_tip :
  last_block initial_blockchain = Ok genesis_block /\
  hash genesis_block = Some (compute_hash (Block_init 0 [] (Int 0) "0" 0)).
Proof. split; reflexivity. Qed.

(** The only way the reconstruction raises: up to some place the blocks are
    accepted, and the next one gets the verdict False from [add_block]. *)
Lemma create_chain_from_dump_loop_raises (chain_dump : list BlockData) :
  forall (generated : Blockchain) (e : exn),
    has_sealed_tip generated ->
    create_chain_from_dump_loop difficulty generated 1 chain_dump = Raise e ->
    e = tampered /\
    exists accepted bad rest rebuilt,
      chain_dump = accepted ++ bad :: rest /\
      create_chain_from_dump_loop difficulty generated 1 accepted = Ok rebuilt /\
      fst (add_block difficulty rebuilt (of_data bad) (data_hash bad)) = Ok false.
Proof.
  induction chain_dump as [|block_data chain_dump IH]; intros generated e Hwf Hrun.
  - discriminate.
  - rewrite create_chain_from_dump_loop_step in Hrun.
    pose proof (add_block_keeps_sealed_tip difficulty generated (of_data block_data)
                  (data_hash block_data) Hwf) as Hkept.
    pose proof Hwf as (tip & tip_hash & Htip & Hhash).
    pose proof (add_block_cases difficulty generated tip tip_hash
                  (of_data block_data) (data_hash block_data) Htip Hhash) as Hcases.
    destruct (add_block difficulty generated (of_data block_data) (data_hash block_data))
      as [[[|]|e'] grown] eqn:Hadd; simpl in Hkept.
    + destruct (IH grown e Hkept Hrun) as (-> & accepted & bad & rest & rebuilt & -> & Hok & Hbad).
      split; [reflexivity|].
      exists (block_data :: accepted), bad, rest, rebuilt. repeat split; [|exact Hbad].
      rewrite create_chain_from_dump_loop_step, Hadd. exact Hok.
    + injection Hrun as <-. split; [reflexivity|].
      exists [], block_data, chain_dump, generated. repeat split. now rewrite Hadd.
    + destruct (String.eqb tip_hash (previous_hash (of_data block_data))
                && is_valid_proof difficulty (of_data block_data) (data_hash block_data));
        discriminate.
Qed.

Lemma create_chain_from_dump_raises (chain_dump : list BlockData) (e : exn) :
  create_chain_from_dump difficulty chain_dump = Raise e ->
  e = tampered /\
  exists first accepted bad rest rebuilt,
    chain_dump = first :: accepted ++ bad :: rest /\
    create_chain_from_dump difficulty (first :: accepted) = Ok rebuilt /\
    fst (add_block difficulty rebuilt (of_data bad) (data_hash bad)) = Ok false.
Proof.
  destruct chain_dump as [|first chain_dump]; [discriminate|].
  rewrite create_chain_from_dump_cons. intros Hrun.
  apply create_chain_from_dump_loop_raises in Hrun;
    [|apply initial_blockchain_has_sealed_tip].
  destruct Hrun as (-> & accepted & bad & rest & rebuilt & -> & Hok & Hbad).
  split; [reflexivity|]. now exists first, accepted, bad, rest, rebuilt.
Qed.

(** C6 -- a tampered dump is rejected as a whole.  Take a dump in which the
    blocks up to some place are accepted by the reconstruction and the next
    one fails the re-validation of [add_block].  Then
    [create_chain_from_dump] raises, nothing of what it had rebuilt is
    returned, [register_with_existing_node] fails with that exception, and
    the globals of the node (its blockchain, and its peers) are as
    before. *)
Theorem tampered_dump_leaves_node_unchanged
    (first : BlockData) (accepted : list BlockData) (bad : BlockData)
    (rest : list BlockData) (rebuilt : Blockchain)
    (node_address : string) (response : RegisterResponse) (node : Node) :
  create_chain_from_dump difficulty (first :: accepted) = Ok rebuilt ->
  fst (add_block difficulty rebuilt (of_data bad) (data_hash bad)) = Ok false ->
  response_chain response = first :: accepted ++ bad :: rest ->
  status_code response = 200 ->
  node_address <> EmptyString ->
  create_chain_from_dump difficulty (response_chain response) = Raise tampered /\
  register_with_existing_node difficulty node_address (Ok response) node
    = (Raise tampered, node).
Proof.
  intros Hprefix Hbad Hdump Hstatus Haddr.
  assert (Hraise : create_chain_from_dump difficulty (response_chain response)
                   = Raise tampered).
  { rewrite Hdump, create_chain_from_dump_cons, create_chain_from_dump_loop_app.
    rewrite create_chain_from_dump_cons in Hprefix. rewrite Hprefix.
    rewrite create_chain_from_dump_loop_step.
    destruct (add_block difficulty rebuilt (of_data bad) (data_hash bad))
      as [verdict rebuilt']. simpl in Hbad. subst verdict. reflexivity. }
  split; [exact Hraise|].
  unfold register_with_existing_node.
  apply String.eqb_neq in Haddr. rewrite Haddr, Hstatus. simpl.
  rewrite Hraise. reflexivity.
Qed.

(** C10 -- the first element of a dump is skipped.  Whatever the first
    element of the dump holds, the reconstruction gives the same result.
    When it completes, the first block of the rebuilt chain is the genesis
    block generated locally (index 0, no transactions, timestamp 0,
    previous_hash "0", hash computed locally), the blocks after it are those
    of the rest of the dump, each has passed [is_valid_proof], and they are
    linked one to the next starting from the hash of that local genesis. *)
Theorem create_chain_from_dump_skips_first (chain_dump : list BlockData)
    (rebuilt : Blockchain) :
  create_chain_from_dump difficulty chain_dump = Ok rebuilt ->
  (forall first', create_chain_from_dump difficulty (first' :: tl chain_dump)
                  = Ok rebuilt) /\
  chain rebuilt = genesis_block :: map sealed_of_data (tl chain_dump) /\
  genesis_block
    = mkBlock 0 [] (Int 0) "0" 0 (Some (compute_hash (Block_init 0 [] (Int 0) "0" 0))) /\
  linked (compute_hash (Block_init 0 [] (Int 0) "0" 0))
         (map sealed_of_data (tl chain_dump)) /\
  Forall (fun block_data =>
            is_valid_proof difficulty (of_data block_data) (data_hash block_data) = true)
         (tl chain_dump).
Proof.
  intros Hrun.
  assert (Hloop : create_chain_from_dump_loop difficulty initial_blockchain 1
                    (tl chain_dump) = Ok rebuilt).
  { destruct chain_dump as [|first rest]; [exact Hrun|].
    now rewrite create_chain_from_dump_cons in Hrun. }
  split; [intros first'; now rewrite create_chain_from_dump_cons|].
  destruct initial_blockchain_tip as [Htip Hhash].
  destruct (create_chain_from_dump_loop_ok _ _ _ _ _ Htip Hhash Hloop)
    as (Hchain & Hlinked & Hall).
  repeat split; assumption.
Qed.

(** Through the loop of [consensus], [longest_chain] stays falsy: it is
    rebound only after [check_chain_validity] has answered True on the
    peer's list of dicts, which it does for the empty list alone. *)
Lemma consensus_loop_falsy (fetched : list (result ChainResponse)) :
  forall (current_len : Z) (longest_chain found : option (list pyobj)),
    truthy longest_chain = false ->
    consensus_loop difficulty fetched current_len longest_chain = Ok found ->
    truthy found = false.
Proof.
  induction fetched as [|[response|e] fetched IH];
    intros current_len longest_chain found Hfalsy Hrun; simpl in Hrun.
  - now injection Hrun as <-.
  - destruct (negb (response_length response >? current_len)).
    + eapply IH; eassumption.
    + destruct (check_chain_validity difficulty (map PDict (response_dump response)))
        as [[[|]|e] after] eqn:Hcheck; [| |discriminate].
      * apply check_chain_validity_dicts in Hcheck. destruct Hcheck as [_ ->].
        eapply IH; [|eassumption]. reflexivity.
      * eapply IH; eassumption.
  - discriminate.
Qed.

(** [consensus] leaves the globals as they are, whatever the peers send. *)
Lemma consensus_never_replaces (fetched : list (result ChainResponse)) (node : Node) :
  snd (consensus difficulty fetched node) = node.
Proof.
  unfold consensus.
  destruct (ledger_chain_len (blockchain node)) as [current_len|e]; [|reflexivity].
  destruct (consensus_loop difficulty fetched current_len None)
    as [found|e] eqn:Hloop; [|reflexivity].
  apply consensus_loop_falsy in Hloop; [|reflexivity].
  rewrite Hloop. reflexivity.
Qed.

(** C1 -- consensus monotonicity.  For every list of answers fetched from
    the peers, in whatever number and order, after [consensus] has run
    (returned or raised) the node is as before, or its blockchain has been
    replaced as a whole by a list that passes [check_chain_validity] and is
    strictly longer than the chain held before. *)
Theorem consensus_monotone (fetched : list (result ChainResponse))
    (node : Node) (outcome : result bool) (node' : Node) :
  consensus difficulty fetched node = (outcome, node') ->
  node' = node \/
  exists (current : Blockchain) (adopted : list pyobj),
    blockchain node = LedgerObject current /\
    node' = mkNode (LedgerList adopted) (peers node) /\
    fst (check_chain_validity difficulty adopted) = Ok true /\
    (List.length (chain current) < List.length adopted)%nat.
Proof.
  intros Hrun. left.
  rewrite <- (consensus_never_replaces fetched node), Hrun. reflexivity.
Qed.

End Node.

(* ------------------------------------------------------------------ *)
(** * The node at difficulty 4 *)

Example mine_on_initial_chain :
  mine Blockchain_difficulty 3 mining_time blockchain_with_pool
  = Some (Ok true, mkBlockchain [] [genesis_block; block_1]).
Proof. vm_compute. reflexivity. Qed.

Lemma genesis_block_not_sealed :
  is_valid_proof Blockchain_difficulty (delattr_hash genesis_block) genesis_digest
  = false.
Proof. vm_compute. reflexivity. Qed.

(** C2 -- the chain the node builds does not pass its own validator.  The
    genesis block gets its hash from [compute_hash] without a proof-of-work
    search, and that hash does not start with four zeros; the validator asks
    the prefix of every block, so a chain that starts with the genesis block
    gets the verdict False at its first block, whatever follows (and the
    genesis block is left without its hash attribute). *)
Theorem genesis_chain_fails_validity (rest : list pyobj) :
  check_chain_validity Blockchain_difficulty (PBlock genesis_block :: rest)
  = (Ok false, PBlock (delattr_hash genesis_block) :: rest).
Proof.
  unfold check_chain_validity. cbn [check_chain_validity_from].
  replace (getattr_hash genesis_block) with (Ok genesis_digest)
    by (vm_compute; reflexivity).
  rewrite genesis_block_not_sealed. reflexivity.
Qed.

Example mined_chain_fails_validity :
  check_chain_validity Blockchain_difficulty (map PBlock [genesis_block; block_1])
  = (Ok false, map PBlock [delattr_hash genesis_block; block_1]).
Proof. vm_compute. reflexivity. Qed.

Lemma consensus_monotone_witness :
  initial_node = initial_node \/
  exists (current : Blockchain) (adopted : list pyobj),
    blockchain initial_node = LedgerObject current /\
    initial_node = mkNode (LedgerList adopted) (peers initial_node) /\
    fst (check_chain_validity Blockchain_difficulty adopted) = Ok true /\
    (List.length (chain current) < List.length adopted)%nat.
Proof.
  apply (consensus_monotone Blockchain_difficulty [Ok peer_chain_response]
           initial_node (Raise AttributeError) initial_node).
  vm_compute. reflexivity.
Defined.

Lemma add_block_gating_witness :
  (let appended :=
     set_chain initial_blockchain
               (chain initial_blockchain ++ [set_hash (set_nonce candidate_1 3) digest_1]) in
   add_block Blockchain_difficulty initial_blockchain (set_nonce candidate_1 3) digest_1
     = (Ok true, appended) /\
   last_block appended = Ok (set_hash (set_nonce candidate_1 3) digest_1) /\
   hash (set_hash (set_nonce candidate_1 3) digest_1) = Some digest_1) /\
  add_block Blockchain_difficulty initial_blockchain candidate_1 digest_1
    = (Ok false, initial_blockchain).
Proof.
  split.
  - apply (add_block_gating Blockchain_difficulty initial_blockchain genesis_block
             genesis_digest (set_nonce candidate_1 3) digest_1);
      vm_compute; reflexivity.
  - apply (add_block_gating Blockchain_difficulty initial_blockchain genesis_block
             genesis_digest candidate_1 digest_1);
      [vm_compute; reflexivity | vm_compute; reflexivity |].
    right; left. vm_compute. discriminate.
Defined.

Lemma mine_pool_and_chain_witness :
  mine Blockchain_difficulty 3 mining_time initial_blockchain
    = Some (Ok false, initial_blockchain) /\
  exists new_block,
    mine Blockchain_difficulty 3 mining_time blockchain_with_pool
      = Some (Ok true, mkBlockchain [] (chain blockchain_with_pool ++ [new_block])) /\
    transactions new_block = unconfirmed_transactions blockchain_with_pool /\
    index new_block = index genesis_block + 1 /\
    previous_hash new_block = genesis_digest /\
    timestamp new_block = mining_time.
Proof.
  split.
  - apply (mine_pool_and_chain Blockchain_difficulty 3 mining_time initial_blockchain).
    reflexivity.
  - apply (proj2 (proj2 (mine_pool_and_chain Blockchain_difficulty 3 mining_time
                           blockchain_with_pool)) genesis_block genesis_digest 3%nat).
    + discriminate.
    + vm_compute; reflexivity.
    + vm_compute; reflexivity.
    + vm_compute; reflexivity.
    + lia.
Defined.

(** Against C5 as stated: the genesis block with its hash attribute and
    without it agree on the five fields and have different digests. *)
Lemma compute_hash_depends_on_hash_attribute :
  same_init_fields (delattr_hash genesis_block) genesis_block /\
  compute_hash (delattr_hash genesis_block) <> compute_hash genesis_block.
Proof.
  split.
  - repeat split.
  - vm_compute. discriminate.
Qed.

Lemma compute_hash_digest_input_witness :
  (Json.dumps (Block_dict (set_nonce candidate_1 3))
     = canonical_text (set_nonce candidate_1 3) /\
   compute_hash (set_nonce candidate_1 3)
     = SHA256.hexdigest (canonical_text (set_nonce candidate_1 3))) /\
  (Json.dumps (Block_dict block_1)
     = render_items (("hash", Json.encode_string digest_1) :: canonical_items block_1) /\
   Json.dumps (Block_dict block_1) <> canonical_text block_1 /\
   compute_hash block_1
     = SHA256.hexdigest
         (render_items (("hash", Json.encode_string digest_1) :: canonical_items block_1))) /\
  compute_hash (delattr_hash block_1) = SHA256.hexdigest (canonical_text block_1).
Proof.
  split; [|split].
  - exact (proj1 (compute_hash_digest_input (set_nonce candidate_1 3)) eq_refl).
  - exact (proj1 (proj2 (compute_hash_digest_input block_1)) digest_1 eq_refl).
  - exact (proj1 (proj2 (proj2 (compute_hash_digest_input block_1)))).
Defined.

Lemma tampered_dump_leaves_node_unchanged_witness :
  create_chain_from_dump Blockchain_difficulty (response_chain tampered_response)
    = Raise tampered /\
  register_with_existing_node Blockchain_difficulty "http://10.253.19.173:8000/"
    (Ok tampered_response) initial_node
    = (Raise tampered, initial_node).
Proof.
  apply (tampered_dump_leaves_node_unchanged Blockchain_difficulty
           (to_data mined_second "anything") [to_data block_1 digest_1]
           forged_data [to_data mined_second "never reached"]
           (mkBlockchain [] [genesis_block; block_1])).
  - vm_compute; reflexivity.
  - vm_compute; reflexivity.
  - reflexivity.
  - reflexivity.
  - discriminate.
Defined.

(** Against C7 as stated: two blocks that each carry a valid proof of work,
    the second not linked to the first.  The verdict is False and the second
    block has lost its hash attribute. *)
Lemma check_chain_validity_strips_hash :
  is_valid_proof Blockchain_difficulty (delattr_hash mined_genesis)
                 "000032e43be950a2ed50c2806e1eca61f37bd8a42ca18720e18bab6c7a73da34"
    = true /\
  is_valid_proof Blockchain_difficulty (delattr_hash block_1) digest_1 = true /\
  check_chain_validity Blockchain_difficulty (map PBlock [mined_genesis; block_1])
    = (Ok false, map PBlock [mined_genesis; delattr_hash block_1]) /\
  hash block_1 = Some digest_1 /\
  hash (delattr_hash block_1) = None.
Proof. repeat split; vm_compute; reflexivity. Qed.

Lemma check_chain_validity_true_restores_witness :
  fst (check_chain_validity Blockchain_difficulty
         (map PBlock [mined_genesis; mined_second])) = Ok true /\
  snd (check_chain_validity Blockchain_difficulty
         (map PBlock [mined_genesis; mined_second]))
    = map PBlock [mined_genesis; mined_second].
Proof.
  split; [vm_compute; reflexivity|].
  apply (check_chain_validity_true_restores Blockchain_difficulty
           [mined_genesis; mined_second]).
  vm_compute. reflexivity.
Defined.

(** Against C8 as stated: the candidate [mine] builds holds nonce 0 before
    the search and nonce 3 after it. *)
Lemma proof_of_work_mutates_candidate :
  proof_of_work Blockchain_difficulty 3 candidate_1
    = Some (digest_1, set_nonce candidate_1 3) /\
  nonce candidate_1 = 0 /\
  nonce (set_nonce candidate_1 3) = 3 /\
  set_nonce candidate_1 3 <> candidate_1.
Proof.
  repeat split; try (vm_compute; reflexivity). discriminate.
Qed.

Lemma proof_of_work_changes_nonce_only_witness :
  set_nonce candidate_1 3 = set_nonce candidate_1 (nonce (set_nonce candidate_1 3)) /\
  index (set_nonce candidate_1 3) = index candidate_1 /\
  transactions (set_nonce candidate_1 3) = transactions candidate_1 /\
  timestamp (set_nonce candidate_1 3) = timestamp candidate_1 /\
  previous_hash (set_nonce candidate_1 3) = previous_hash candidate_1 /\
  hash (set_nonce candidate_1 3) = hash candidate_1.
Proof.
  apply (proof_of_work_changes_nonce_only Blockchain_difficulty 3 candidate_1
           digest_1 (set_nonce candidate_1 3)).
  vm_compute. reflexivity.
Defined.

Lemma proof_of_work_sealing_correct_witness :
  (forall i, (i < Blockchain_difficulty)%nat -> String.get i digest_1 = Some "0"%char) /\
  digest_1 = compute_hash (set_nonce candidate_1 (nonce (set_nonce candidate_1 3))) /\
  set_nonce candidate_1 3 = set_nonce candidate_1 (nonce (set_nonce candidate_1 3)) /\
  0 <= nonce (set_nonce candidate_1 3).
Proof.
  apply (proof_of_work_sealing_correct Blockchain_difficulty 3 candidate_1
           digest_1 (set_nonce candidate_1 3)).
  vm_compute. reflexivity.
Defined.

Lemma create_chain_from_dump_skips_first_witness :
  (forall first', create_chain_from_dump Blockchain_difficulty (first' :: tl honest_dump)
                  = Ok (mkBlockchain [] [genesis_block; block_1])) /\
  chain (mkBlockchain [] [genesis_block; block_1])
    = genesis_block :: map sealed_of_data (tl honest_dump) /\
  genesis_block
    = mkBlock 0 [] (Int 0) "0" 0 (Some (compute_hash (Block_init 0 [] (Int 0) "0" 0))) /\
  linked (compute_hash (Block_init 0 [] (Int 0) "0" 0))
         (map sealed_of_data (tl honest_dump)) /\
  Forall (fun block_data =>
            is_valid_proof Blockchain_difficulty (of_data block_data)
                           (data_hash block_data) = true)
         (tl honest_dump).
Proof.
  apply (create_chain_from_dump_skips_first Blockchain_difficulty honest_dump
           (mkBlockchain [] [genesis_block; block_1])).
  vm_compute. reflexivity.
Defined.

(** The answer of an honest peer that is one block ahead makes [consensus]
    raise; an answer that is not longer is passed over. *)
Example consensus_on_longer_peer_chain :
  consensus Blockchain_difficulty [Ok peer_chain_response] initial_node
  = (Raise AttributeError, initial_node).
Proof. vm_compute. reflexivity. Qed.

Example consensus_on_equal_length :
  consensus Blockchain_difficulty
    [Ok (mkChainResponse 1 [to_data genesis_block genesis_digest])] initial_node
  = (Ok false, initial_node).
Proof. vm_compute. reflexivity. Qed.

(* ------------------------------------------------------------------ *)
(** * More on the search and on the validator *)

Section SearchAndValidator.

Variable difficulty : nat.

(** No nonce the loop has passed gives a digest with the prefix. *)
Lemma proof_of_work_loop_least (fuel : nat) :
  forall (block : Block) (computed_hash proof : string) (found : Block),
    computed_hash = compute_hash block ->
    proof_of_work_loop difficulty fuel block computed_hash = Some (proof, found) ->
    forall m, nonce block <= m < nonce found ->
      startswith (compute_hash (set_nonce block m)) (str_mul "0" difficulty) = false.
Proof.
  induction fuel as [|fuel IH]; intros block computed_hash proof found Hh Hrun m Hm;
    rewrite proof_of_work_loop_eq in Hrun;
    destruct (startswith computed_hash (str_mul "0" difficulty)) eqn:Hgoal;
    try discriminate; try (injection Hrun as <- <-; lia).
  destruct (Z.eq_dec m (nonce block)) as [->|Hne].
  - rewrite set_nonce_same, <- Hh. exact Hgoal.
  - rewrite <- (set_nonce_twice block (nonce block + 1) m).
    apply (IH _ _ _ _ eq_refl Hrun). cbn [nonce set_nonce]. lia.
Qed.

(** X1 -- the search settles on the least nonce.  Whenever [proof_of_work]
    returns, no nonce from 0 up to the one it settled on (excluded) gives the
    candidate a digest with the ['0' * difficulty] prefix. *)
Theorem proof_of_work_least_nonce
    (fuel : nat) (block : Block) (proof : string) (found : Block) :
  proof_of_work difficulty fuel block = Some (proof, found) ->
  forall m, 0 <= m < nonce found ->
    startswith (compute_hash (set_nonce block m)) (str_mul "0" difficulty) = false.
Proof.
  unfold proof_of_work. intros Hrun m Hm.
  rewrite <- (set_nonce_twice block 0 m).
  apply (proof_of_work_loop_least fuel _ _ _ _ eq_refl Hrun).
  cbn [nonce set_nonce]. exact Hm.
Qed.

(** X2 -- the search returns the digest at the first good nonce.  If the
    digest of the candidate at nonce [k] has the prefix and no smaller nonce
    from 0 does, then, allowed at least [k] turns of its loop,
    [proof_of_work] returns that digest and leaves the candidate with nonce
    [k], whatever nonce the candidate held before. *)
Theorem proof_of_work_returns_first (k fuel : nat) (block : Block) :
  startswith (compute_hash (set_nonce block (Z.of_nat k))) (str_mul "0" difficulty) = true ->
  (forall m, (m < k)%nat ->
     startswith (compute_hash (set_nonce block (Z.of_nat m))) (str_mul "0" difficulty) = false) ->
  (k <= fuel)%nat ->
  proof_of_work difficulty fuel block
  = Some (compute_hash (set_nonce block (Z.of_nat k)), set_nonce block (Z.of_nat k)).
Proof.
  intros Hk Hfirst Hfuel.
  destruct (proof_of_work_ends difficulty k fuel block Hk Hfuel) as (proof & found & Hrun).
  pose proof (proof_of_work_spec _ _ _ _ _ Hrun) as (Hgoal & Hproof & Hfound & Hpos).
  assert (Hleast : forall m, 0 <= m < nonce found ->
            startswith (compute_hash (set_nonce block m)) (str_mul "0" difficulty) = false).
  { unfold proof_of_work in Hrun. intros m Hm.
    rewrite <- (set_nonce_twice block 0 m).
    apply (proof_of_work_loop_least fuel _ _ _ _ eq_refl Hrun).
    cbn [nonce set_nonce]. exact Hm. }
  assert (Hn : nonce found = Z.of_nat k).
  { destruct (Z.lt_trichotomy (nonce found) (Z.of_nat k)) as [Hlt|[Heq|Hgt]].
    - specialize (Hfirst (Z.to_nat (nonce found))).
      rewrite Z2Nat.id in Hfirst by exact Hpos.
      rewrite <- Hfound, <- Hproof, Hgoal in Hfirst.
      assert (Hm : (Z.to_nat (nonce found) < k)%nat) by lia.
      specialize (Hfirst Hm). discriminate.
    - exact Heq.
    - rewrite (Hleast (Z.of_nat k)) in Hk by lia. discriminate. }
  rewrite Hrun, Hproof, Hfound, Hn. reflexivity.
Qed.

(** One step of the loop of [check_chain_validity] on a [Block]. *)
Lemma check_chain_validity_from_block (previous_hash' : string) (block : Block)
    (rest : list pyobj) :
  check_chain_validity_from difficulty previous_hash' (PBlock block :: rest)
  = match hash block with
    | None => (Raise AttributeError, PBlock block :: rest)
    | Some block_hash =>
        if negb (is_valid_proof difficulty (delattr_hash block) block_hash)
           || negb (String.eqb previous_hash' (previous_hash block))
        then (Ok false, PBlock (delattr_hash block) :: rest)
        else
          (fst (check_chain_validity_from difficulty block_hash rest),
           PBlock block :: snd (check_chain_validity_from difficulty block_hash rest))
    end.
Proof.
  cbn [check_chain_validity_from]. unfold getattr_hash.
  destruct (hash block) as [block_hash|] eqn:Hhash; [|reflexivity].
  change (previous_hash (delattr_hash block)) with (previous_hash block).
  destruct (negb (is_valid_proof difficulty (delattr_hash block) block_hash)
            || negb (String.eqb previous_hash' (previous_hash block))); [reflexivity|].
  rewrite (delattr_set_hash block block_hash Hhash).
  destruct (check_chain_validity_from difficulty block_hash rest); reflexivity.
Qed.

Lemma check_chain_validity_from_true (blocks : list Block) :
  forall previous_hash' : string,
    fst (check_chain_validity_from difficulty previous_hash' (map PBlock blocks)) = Ok true
    <-> linked previous_hash' blocks /\ Forall (sealed difficulty) blocks.
Proof.
  induction blocks as [|b blocks IH]; intros previous_hash'.
  - simpl. split; [intros _; split; [exact I|constructor]|reflexivity].
  - cbn [map]. rewrite check_chain_validity_from_block. cbn [linked].
    destruct (hash b) as [h|] eqn:Hhash.
    + destruct (is_valid_proof difficulty (delattr_hash b) h) eqn:Hvalid;
        destruct (String.eqb previous_hash' (previous_hash b)) eqn:Hlink;
        cbn [negb orb fst].
      * rewrite IH. apply String.eqb_eq in Hlink. split.
        -- intros [Hl Hs]. repeat split; auto.
           constructor; [exists h; auto|exact Hs].
        -- intros [[_ Hl] Hs]. inversion Hs; subst. auto.
      * apply String.eqb_neq in Hlink.
        split; [discriminate|]. intros [[Hp _] _]. congruence.
      * split; [discriminate|]. intros [_ Hs]. inversion Hs as [|? ? (h' & Hh' & Hv) ?]; subst.
        rewrite Hhash in Hh'. injection Hh' as <-. congruence.
      * split; [discriminate|]. intros [_ Hs]. inversion Hs as [|? ? (h' & Hh' & Hv) ?]; subst.
        rewrite Hhash in Hh'. injection Hh' as <-. congruence.
    + cbn [fst]. split; [discriminate|]. intros [[_ []] _].
Qed.

(** X3 -- what the validator accepts.  On a list of [Block] objects
    [check_chain_validity] answers True exactly when the first block names
    the previous hash "0", every later block names the hash of the block
    before it, and every block carries a hash that has the
    ['0' * difficulty] prefix and is the digest of its other fields. *)
Theorem check_chain_validity_true_iff (blocks : list Block) :
  fst (check_chain_validity difficulty (map PBlock blocks)) = Ok true
  <-> linked "0" blocks /\ Forall (sealed difficulty) blocks.
Proof. apply check_chain_validity_from_true. Qed.

Lemma check_chain_validity_from_false (blocks : list Block) :
  forall (previous_hash' : string) (after : list pyobj),
    check_chain_validity_from difficulty previous_hash' (map PBlock blocks)
      = (Ok false, after) ->
    exists passed bad later bad_hash,
      blocks = passed ++ bad :: later /\
      hash bad = Some bad_hash /\
      after = map PBlock (passed ++ delattr_hash bad :: later) /\
      linked previous_hash' passed /\ Forall (sealed difficulty) passed /\
      (is_valid_proof difficulty (delattr_hash bad) bad_hash = false \/
       previous_hash bad <> final_hash previous_hash' passed).
Proof.
  induction blocks as [|b blocks IH]; intros previous_hash' after Hrun.
  - discriminate.
  - cbn [map] in Hrun. rewrite check_chain_validity_from_block in Hrun.
    destruct (hash b) as [h|] eqn:Hhash; [|discriminate].
    destruct (is_valid_proof difficulty (delattr_hash b) h) eqn:Hvalid;
      destruct (String.eqb previous_hash' (previous_hash b)) eqn:Hlink;
      cbn [negb orb] in Hrun.
    + destruct (check_chain_validity_from difficulty h (map PBlock blocks))
        as [verdict rest'] eqn:Hrest. cbn [fst snd] in Hrun.
      injection Hrun as -> <-.
      destruct (IH _ _ Hrest) as (passed & bad & later & bad_hash & -> & Hbh & -> & Hl & Hs & Hwhy).
      apply String.eqb_eq in Hlink.
      exists (b :: passed), bad, later, bad_hash.
      split; [reflexivity|]. split; [exact Hbh|]. split; [reflexivity|].
      split; [cbn [linked]; rewrite Hhash; auto|].
      split; [constructor; [exists h; auto|exact Hs]|].
      unfold final_hash. cbn [fold_left]. rewrite Hhash. exact Hwhy.
    + injection Hrun as <-. exists [], b, blocks, h.
      apply String.eqb_neq in Hlink.
      split; [reflexivity|]. split; [exact Hhash|]. split; [reflexivity|].
      split; [exact I|]. split; [constructor|].
      right. intros Heq. apply Hlink. symmetry. exact Heq.
    + injection Hrun as <-. exists [], b, blocks, h.
      split; [reflexivity|]. split; [exact Hhash|]. split; [reflexivity|].
      split; [exact I|]. split; [constructor|]. left. exact Hvalid.
    + injection Hrun as <-. exists [], b, blocks, h.
      split; [reflexivity|]. split; [exact Hhash|]. split; [reflexivity|].
      split; [exact I|]. split; [constructor|]. left. exact Hvalid.
Qed.

(** X4 -- what a rejected list looks like afterwards.  When
    [check_chain_validity] answers False on a list of [Block] objects, the
    blocks before the first one that fails are as they were, that first
    failing block (its hash is not a valid proof, or it does not name the
    hash before it) has lost its hash attribute and nothing else, and the
    blocks after it have not been looked at. *)
Theorem check_chain_validity_false_strips_first_failure
    (blocks : list Block) (after : list pyobj) :
  check_chain_validity difficulty (map PBlock blocks) = (Ok false, after) ->
  exists passed bad later bad_hash,
    blocks = passed ++ bad :: later /\
    hash bad = Some bad_hash /\
    after = map PBlock (passed ++ delattr_hash bad :: later) /\
    linked "0" passed /\ Forall (sealed difficulty) passed /\
    (is_valid_proof difficulty (delattr_hash bad) bad_hash = false \/
     previous_hash bad <> final_hash "0" passed).
Proof. apply check_chain_validity_from_false. Qed.

Lemma check_chain_validity_from_raise (chain : list pyobj) :
  forall (previous_hash' : string) (e : exn) (after : list pyobj),
    check_chain_validity_from difficulty previous_hash' chain = (Raise e, after) ->
    e = AttributeError /\ after = chain /\
    exists passed culprit later,
      chain = map PBlock passed ++ culprit :: later /\
      linked previous_hash' passed /\ Forall (sealed difficulty) passed /\
      match culprit with
      | PBlock b => hash b = None
      | PDict _ => True
      end.
Proof.
  induction chain as [|[b|d] chain IH]; intros previous_hash' e after Hrun.
  - discriminate.
  - rewrite check_chain_validity_from_block in Hrun.
    destruct (hash b) as [h|] eqn:Hhash.
    + destruct (is_valid_proof difficulty (delattr_hash b) h) eqn:Hvalid;
        destruct (String.eqb previous_hash' (previous_hash b)) eqn:Hlink;
        cbn [negb orb] in Hrun; try discriminate.
      destruct (check_chain_validity_from difficulty h chain)
        as [verdict rest'] eqn:Hrest. cbn [fst snd] in Hrun.
      injection Hrun as -> <-.
      destruct (IH _ _ _ Hrest) as (-> & -> & passed & culprit & later & -> & Hl & Hs & Hc).
      apply String.eqb_eq in Hlink.
      split; [reflexivity|]. split; [reflexivity|].
      exists (b :: passed), culprit, later.
      split; [reflexivity|].
      split; [cbn [linked]; rewrite Hhash; auto|].
      split; [constructor; [exists h; auto|exact Hs]|exact Hc].
    + injection Hrun as <- <-. split; [reflexivity|]. split; [reflexivity|].
      exists [], (PBlock b), chain.
      split; [reflexivity|]. split; [exact I|]. split; [constructor|exact Hhash].
  - cbn [check_chain_validity_from] in Hrun. injection Hrun as <- <-.
    split; [reflexivity|]. split; [reflexivity|].
    exists [], (PDict d), chain.
    split; [reflexivity|]. split; [exact I|]. split; [constructor|exact I].
Qed.

(** X5 -- when the validator raises.  [check_chain_validity] raises only
    [AttributeError], and only on reaching, after blocks that all pass, an
    element that is a dict or a block without hash attribute; every element
    of the list is then as it was before the call. *)
Theorem check_chain_validity_raise (chain : list pyobj) (e : exn) (after : list pyobj) :
  check_chain_validity difficulty chain = (Raise e, after) ->
  e = AttributeError /\ after = chain /\
  exists passed culprit later,
    chain = map PBlock passed ++ culprit :: later /\
    linked "0" passed /\ Forall (sealed difficulty) passed /\
    match culprit with
    | PBlock b => hash b = None
    | PDict _ => True
    end.
Proof. apply check_chain_validity_from_raise. Qed.

End SearchAndValidator.

(* ------------------------------------------------------------------ *)
(** * The ledgers the node goes through *)

Section ReachableLedgers.

Variable difficulty : nat.

Lemma final_hash_cons (h x : string) (b : Block) (blocks : list Block) :
  hash b = Some x -> final_hash h (b :: blocks) = final_hash x blocks.
Proof. intros Hb. unfold final_hash. cbn [fold_left]. now rewrite Hb. Qed.

Lemma final_hash_snoc (h x : string) (b : Block) (blocks : list Block) :
  hash b = Some x -> final_hash h (blocks ++ [b]) = x.
Proof.
  intros Hb. unfold final_hash. rewrite fold_left_app. cbn [fold_left].
  now rewrite Hb.
Qed.

Lemma linked_app (l1 : list Block) :
  forall (h : string) (l2 : list Block),
    linked h (l1 ++ l2) <-> linked h l1 /\ linked (final_hash h l1) l2.
Proof.
  induction l1 as [|a l1 IH]; intros h l2.
  - cbn [app linked]. unfold final_hash. cbn [fold_left]. tauto.
  - cbn [app linked]. destruct (hash a) as [x|] eqn:Ha.
    + rewrite (final_hash_cons h x a l1 Ha), IH. tauto.
    + tauto.
Qed.

Lemma genesis_block_hash : hash genesis_block = Some genesis_hash.
Proof. unfold genesis_hash. apply initial_blockchain_tip. Qed.

(** A ledger that satisfies the invariant has a tip, and its hash is the one
    the chain ends on. *)
Lemma ledger_ok_tip (self : Blockchain) (rest : list Block) :
  chain self = genesis_block :: rest ->
  linked genesis_hash rest ->
  exists tip, last_block self = Ok tip /\
              hash tip = Some (final_hash genesis_hash rest).
Proof.
  intros Hchain Hlinked. unfold last_block. rewrite Hchain.
  destruct rest as [|b rest _] using rev_ind.
  - exists genesis_block. split; [reflexivity|].
    unfold final_hash. cbn [fold_left]. exact genesis_block_hash.
  - cbn [rev]. rewrite rev_unit. exists b. split; [reflexivity|].
    apply linked_app in Hlinked. destruct Hlinked as [_ Hb]. cbn [linked] in Hb.
    destruct (hash b) as [x|] eqn:Hx; [|destruct Hb as [_ []]].
    now rewrite (final_hash_snoc _ x b rest Hx).
Qed.

Lemma ledger_ok_has_sealed_tip (self : Blockchain) :
  ledger_ok difficulty self -> has_sealed_tip self.
Proof.
  intros (rest & Hchain & Hlinked & _).
  destruct (ledger_ok_tip self rest Hchain Hlinked) as (tip & Htip & Hhash).
  now exists tip, (final_hash genesis_hash rest).
Qed.

Lemma initial_blockchain_ok : ledger_ok difficulty initial_blockchain.
Proof. exists []. repeat split. constructor. Qed.

(** [add_block] keeps the invariant when the block it is given has no hash
    attribute yet, as the blocks its callers build. *)
Lemma add_block_keeps_ledger_ok (self : Blockchain) (block : Block) (proof : string) :
  ledger_ok difficulty self ->
  hash block = None ->
  ledger_ok difficulty (snd (add_block difficulty self block proof)).
Proof.
  intros Hok Hfresh. pose proof Hok as (rest & Hchain & Hlinked & Hsealed).
  destruct (ledger_ok_tip self rest Hchain Hlinked) as (tip & Htip & Hhash).
  rewrite (add_block_cases difficulty self tip _ block proof Htip Hhash).
  destruct (String.eqb (final_hash genesis_hash rest) (previous_hash block)) eqn:Hlink;
    [|exact Hok].
  destruct (is_valid_proof difficulty block proof) eqn:Hvalid; [|exact Hok].
  cbn [andb snd]. apply String.eqb_eq in Hlink.
  exists (rest ++ [set_hash block proof]). split; [|split].
  - cbn [chain set_chain]. rewrite Hchain. reflexivity.
  - apply linked_app. split; [exact Hlinked|]. cbn [linked hash set_hash previous_hash].
    auto.
  - apply Forall_app. split; [exact Hsealed|]. constructor; [|constructor].
    exists proof. split; [reflexivity|].
    replace (delattr_hash (set_hash block proof)) with block; [exact Hvalid|].
    destruct block; cbn in Hfresh; subst; reflexivity.
Qed.

Lemma mine_keeps_ledger_ok (fuel : nat) (now : number) (self self' : Blockchain)
    (outcome : result bool) :
  ledger_ok difficulty self ->
  mine difficulty fuel now self = Some (outcome, self') ->
  ledger_ok difficulty self'.
Proof.
  intros Hok Hrun.
  destruct (ledger_ok_has_sealed_tip self Hok) as (tip & tip_hash & Htip & Hhash).
  unfold mine, getattr_hash in Hrun. rewrite Htip, Hhash in Hrun.
  destruct (unconfirmed_transactions self) as [|tx pool] eqn:Hp.
  - injection Hrun as <- <-. exact Hok.
  - destruct (proof_of_work difficulty fuel _) as [[proof found]|] eqn:Hpow;
      [|discriminate].
    destruct (proof_of_work_fields _ _ _ _ _ Hpow) as (_ & _ & _ & _ & Hfresh).
    pose proof (add_block_keeps_ledger_ok self found proof Hok Hfresh) as Hkept.
    destruct (add_block difficulty self found proof) as [[verdict|e] grown];
      injection Hrun as <- <-; exact Hkept.
Qed.

Lemma reachable_ok (self : Blockchain) :
  reachable difficulty self -> ledger_ok difficulty self.
Proof.
  induction 1 as [|self tx _ IH|self block_data _ IH|self fuel now outcome self' _ IH Hrun].
  - apply initial_blockchain_ok.
  - exact IH.
  - apply add_block_keeps_ledger_ok; [exact IH|reflexivity].
  - exact (mine_keeps_ledger_ok fuel now self self' outcome IH Hrun).
Qed.

(** X6 -- the ledger invariant.  Every ledger the views lead to from the
    initial one (records stored by [new_transaction], blocks offered through
    [verify_and_add_block], runs of [mine]) has a chain that starts with the
    local genesis block, in which each later block names the hash of the
    block before it and carries a hash that is a valid proof of work for its
    other fields. *)
Theorem reachable_chain_invariant (self : Blockchain) :
  reachable difficulty self ->
  exists rest,
    chain self = genesis_block :: rest /\
    linked genesis_hash rest /\
    Forall (sealed difficulty) rest.
Proof. apply reachable_ok. Qed.

(** X7 -- the tip can always be read.  On every such ledger the chain is
    not empty and its last block carries a hash attribute, so
    [self.last_block] never raises [IndexError] and [self.last_block.hash]
    never raises [AttributeError], the two reads [add_block] and [mine]
    start with; and that tip is the genesis block or a block whose hash is a
    valid proof of work for its other fields. *)
Theorem reachable_tip_has_hash (self : Blockchain) :
  reachable difficulty self ->
  chain self <> [] /\
  exists tip tip_hash,
    last_block self = Ok tip /\
    getattr_hash tip = Ok tip_hash /\
    (tip = genesis_block \/
     is_valid_proof difficulty (delattr_hash tip) tip_hash = true).
Proof.
  intros Hreach.
  destruct (reachable_ok self Hreach) as (rest & Hchain & _ & Hsealed).
  split; [rewrite Hchain; discriminate|].
  unfold last_block. rewrite Hchain.
  destruct rest as [|b rest _] using rev_ind.
  - exists genesis_block, genesis_hash. split; [reflexivity|].
    split; [|left; reflexivity].
    unfold getattr_hash. now rewrite genesis_block_hash.
  - cbn [rev]. rewrite rev_unit.
    apply Forall_app in Hsealed. destruct Hsealed as [_ Hb].
    inversion Hb as [|? ? (h & Hh & Hvalid) _]; subst.
    exists b, h. split; [reflexivity|].
    split; [|right; exact Hvalid].
    unfold getattr_hash. now rewrite Hh.
Qed.

(** The loop of the validator accepts the blocks after the first of a
    ledger that satisfies the invariant. *)
Lemma check_chain_validity_from_accepts (h : string) (blocks : list Block) :
  linked h blocks -> Forall (sealed difficulty) blocks ->
  check_chain_validity_from difficulty h (map PBlock blocks)
  = (Ok true, map PBlock blocks).
Proof.
  intros Hlinked Hsealed.
  pose proof (proj2 (check_chain_validity_from_true difficulty blocks h)
                (conj Hlinked Hsealed)) as Hverdict.
  destruct (check_chain_validity_from difficulty h (map PBlock blocks))
    as [verdict after] eqn:Hrun.
  cbn [fst] in Hverdict. subst verdict.
  now rewrite (check_chain_validity_from_restores difficulty _ _ _ Hrun).
Qed.

Lemma delattr_genesis_block :
  delattr_hash genesis_block = Block_init 0 [] (Int 0) "0" 0.
Proof. reflexivity. Qed.

(** The step of the validator on the genesis block. *)
Lemma check_chain_validity_from_genesis (rest : list pyobj) :
  check_chain_validity_from difficulty "0" (PBlock genesis_block :: rest)
  = if startswith genesis_hash (str_mul "0" difficulty)
    then (fst (check_chain_validity_from difficulty genesis_hash rest),
          PBlock genesis_block
            :: snd (check_chain_validity_from difficulty genesis_hash rest))
    else (Ok false, PBlock (delattr_hash genesis_block) :: rest).
Proof.
  rewrite check_chain_validity_from_block, genesis_block_hash.
  assert (Hvalid : is_valid_proof difficulty (delattr_hash genesis_block) genesis_hash
                   = startswith genesis_hash (str_mul "0" difficulty)).
  { rewrite delattr_genesis_block. unfold is_valid_proof, genesis_hash.
    now rewrite String.eqb_refl, andb_true_r. }
  rewrite Hvalid.
  destruct (startswith genesis_hash (str_mul "0" difficulty)); reflexivity.
Qed.

(** X8 -- the validator on the node's own chain.  For every ledger of the
    node the verdict of [check_chain_validity] on its chain is decided by
    the genesis block alone: True, with every block as before, when the
    digest of the genesis fields happens to have the ['0' * difficulty]
    prefix; otherwise False at the first block, which loses its hash
    attribute. *)
Theorem check_chain_validity_on_reachable (self : Blockchain) :
  reachable difficulty self ->
  check_chain_validity difficulty (map PBlock (chain self))
  = if startswith genesis_hash (str_mul "0" difficulty)
    then (Ok true, map PBlock (chain self))
    else (Ok false, PBlock (delattr_hash genesis_block) :: map PBlock (tl (chain self))).
Proof.
  intros Hreach.
  destruct (reachable_ok self Hreach) as (rest & Hchain & Hlinked & Hsealed).
  rewrite Hchain. cbn [map tl]. unfold check_chain_validity.
  rewrite check_chain_validity_from_genesis.
  rewrite (check_chain_validity_from_accepts genesis_hash rest Hlinked Hsealed).
  reflexivity.
Qed.

(** The typed reading of a block's [__dict__]. *)
Lemma BlockData_of_dict_Block_dict (b : Block) (h : string) :
  hash b = Some h -> BlockData_of_dict (Block_dict b) = Some (to_data b h).
Proof. destruct b as [i t ts p n h']; cbn [hash]. intros ->. reflexivity. Qed.

Lemma sealed_of_to_data (b : Block) (h : string) :
  hash b = Some h -> sealed_of_data (to_data b h) = b.
Proof. destruct b as [i t ts p n h']; cbn [hash]. intros ->. reflexivity. Qed.

Lemma of_to_data (b : Block) (h : string) : of_data (to_data b h) = delattr_hash b.
Proof. reflexivity. Qed.

(** The dicts of a linked run of sealed blocks read back and rebuild into
    the same blocks on top of a ledger whose tip has the hash they start
    from. *)
Lemma dump_of_blocks_rebuilds (blocks : list Block) :
  forall h : string,
    linked h blocks -> Forall (sealed difficulty) blocks ->
    exists dump,
      BlockData_of_dicts (map Block_dict blocks) = Some dump /\
      forall (generated : Blockchain) (tip : Block),
        last_block generated = Ok tip -> hash tip = Some h ->
        create_chain_from_dump_loop difficulty generated 1 dump
        = Ok (set_chain generated (chain generated ++ blocks)).
Proof.
  induction blocks as [|b blocks IH]; intros h Hlinked Hsealed.
  - exists []. split; [reflexivity|]. intros generated tip _ _.
    cbn [create_chain_from_dump_loop]. rewrite app_nil_r.
    destruct generated; reflexivity.
  - cbn [linked] in Hlinked. destruct Hlinked as [Hprev Hrest].
    destruct (hash b) as [x|] eqn:Hx; [|destruct Hrest].
    inversion Hsealed as [|? ? (x' & Hx' & Hvalid) Hsealed']; subst.
    rewrite Hx in Hx'. injection Hx' as <-.
    destruct (IH x Hrest Hsealed') as (dump & Hdump & Hloop).
    exists (to_data b x :: dump). split.
    + cbn [map BlockData_of_dicts].
      now rewrite (BlockData_of_dict_Block_dict b x Hx), Hdump.
    + intros generated tip Htip Hhash.
      rewrite create_chain_from_dump_loop_step.
      rewrite (add_block_cases difficulty generated tip (previous_hash b)) by assumption.
      rewrite of_to_data.
      change (previous_hash (delattr_hash b)) with (previous_hash b).
      change (data_hash (to_data b x)) with x.
      rewrite String.eqb_refl, Hvalid. cbn [andb].
      rewrite (delattr_set_hash b x Hx).
      rewrite (Hloop _ b (last_block_snoc generated (chain generated) b) Hx).
      cbn [chain set_chain]. rewrite <- app_assoc. reflexivity.
Qed.

(** X9 -- what [get_chain] sends rebuilds into the same chain.  For a node
    whose ledger is one of those above, the dict [get_chain] serialises
    reports the number of blocks of the chain as its length, and its list of
    block dicts, read back and given to [create_chain_from_dump], rebuilds
    without error into a ledger with exactly the chain of the node (and an
    empty pool). *)
Theorem get_chain_rebuilds (node : Node) (self : Blockchain) :
  blockchain node = LedgerObject self ->
  reachable difficulty self ->
  exists chain_data dump,
    get_chain_dict node
      = Ok (JDict [ ("length", JNum (Int (Z.of_nat (List.length (chain self)))));
                    ("chain", JList chain_data);
                    ("peers", JList (map JStr (peers node))) ]) /\
    BlockData_of_dicts chain_data = Some dump /\
    create_chain_from_dump difficulty dump = Ok (mkBlockchain [] (chain self)).
Proof.
  intros Hnode Hreach.
  destruct (reachable_ok self Hreach) as (rest & Hchain & Hlinked & Hsealed).
  destruct (dump_of_blocks_rebuilds rest genesis_hash Hlinked Hsealed)
    as (dump & Hdump & Hloop).
  exists (map Block_dict (chain self)), (to_data genesis_block genesis_hash :: dump).
  split; [|split].
  - unfold get_chain_dict. rewrite Hnode, length_map. reflexivity.
  - rewrite Hchain. cbn [map BlockData_of_dicts].
    now rewrite (BlockData_of_dict_Block_dict _ _ genesis_block_hash), Hdump.
  - rewrite create_chain_from_dump_cons.
    rewrite (Hloop initial_blockchain genesis_block eq_refl genesis_block_hash).
    rewrite Hchain. reflexivity.
Qed.

End ReachableLedgers.

(* ------------------------------------------------------------------ *)
(** * The views *)

Section ViewProperties.

Variable difficulty : nat.

Lemma add_block_true (self grown : Blockchain) (block : Block) (proof : string) :
  add_block difficulty self block proof = (Ok true, grown) ->
  grown = set_chain self (chain self ++ [set_hash block proof]).
Proof.
  unfold add_block.
  destruct (last_block self) as [tip|e]; [|discriminate].
  destruct (getattr_hash tip) as [tip_hash|e]; [|discriminate].
  destruct (negb (String.eqb tip_hash (previous_hash block))); [discriminate|].
  destruct (negb (is_valid_proof difficulty block proof)); [discriminate|].
  now intros [= <-].
Qed.

(** [verify_and_add_block] on a node whose ledger has a tip with a hash. *)
Lemma verify_and_add_block_cases (block_data : BlockData) (node : Node)
    (self : Blockchain) (tip : Block) (tip_hash : string) :
  blockchain node = LedgerObject self ->
  last_block self = Ok tip ->
  hash tip = Some tip_hash ->
  verify_and_add_block difficulty block_data node =
    if String.eqb tip_hash (data_previous_hash block_data)
       && is_valid_proof difficulty (of_data block_data) (data_hash block_data)
    then (Ok ("Block added to the chain", 201),
          mkNode (LedgerObject (set_chain self (chain self ++ [sealed_of_data block_data])))
                 (peers node))
    else (Ok ("The block was discarded by the node", 400), node).
Proof.
  intros Hnode Htip Hhash. unfold verify_and_add_block. rewrite Hnode.
  change (Block_init (data_index block_data) (data_transactions block_data)
            (data_timestamp block_data) (data_previous_hash block_data)
            (data_nonce block_data)) with (of_data block_data).
  rewrite (add_block_cases difficulty self tip tip_hash) by assumption.
  change (previous_hash (of_data block_data)) with (data_previous_hash block_data).
  destruct (String.eqb tip_hash (data_previous_hash block_data)
            && is_valid_proof difficulty (of_data block_data) (data_hash block_data)).
  - reflexivity.
  - destruct node as [l p]. cbn [blockchain] in Hnode. subst l. reflexivity.
Qed.

(** What a run of [mine] that returns True has done. *)
Lemma mine_true (fuel : nat) (now : number) (self self' : Blockchain) :
  mine difficulty fuel now self = Some (Ok true, self') ->
  exists tip tip_hash proof found,
    last_block self = Ok tip /\ hash tip = Some tip_hash /\
    proof_of_work difficulty fuel (mine_candidate self tip tip_hash now)
      = Some (proof, found) /\
    self' = mkBlockchain [] (chain self ++ [set_hash found proof]).
Proof.
  intros Hrun. unfold mine in Hrun.
  destruct (unconfirmed_transactions self) as [|tx pool] eqn:Hp; [discriminate|].
  destruct (last_block self) as [tip|e] eqn:Htip; [|discriminate].
  unfold getattr_hash in Hrun.
  destruct (hash tip) as [tip_hash|] eqn:Hhash; [|discriminate].
  destruct (proof_of_work difficulty fuel _) as [[proof found]|] eqn:Hpow;
    [|discriminate].
  assert (Hpow' : proof_of_work difficulty fuel
                    (mine_candidate self tip tip_hash now) = Some (proof, found))
    by (unfold mine_candidate; rewrite Hp; exact Hpow).
  rewrite (mine_append_succeeds difficulty fuel now self tip tip_hash proof found
             Htip Hhash Hpow') in Hrun.
  injection Hrun as <-.
  exists tip, tip_hash, proof, found. repeat split; assumption.
Qed.

(** X10 -- a mined block is accepted by a peer on the same chain.  When
    [mine] has returned True on a ledger, the dict of the block it appended
    (what [announce_new_block] posts) read back by a node whose chain is the
    chain the miner had before gets 201 from [verify_and_add_block], and
    that node then holds the miner's chain. *)
Theorem mined_block_accepted_by_peer (fuel : nat) (now : number)
    (self self' other : Blockchain) (peer : Node) :
  mine difficulty fuel now self = Some (Ok true, self') ->
  blockchain peer = LedgerObject other ->
  chain other = chain self ->
  exists new_block block_data,
    chain self' = chain self ++ [new_block] /\
    BlockData_of_dict (Block_dict new_block) = Some block_data /\
    verify_and_add_block difficulty block_data peer
    = (Ok ("Block added to the chain", 201),
       mkNode (LedgerObject (set_chain other (chain self'))) (peers peer)).
Proof.
  intros Hrun Hpeer Hchain.
  destruct (mine_true fuel now self self' Hrun)
    as (tip & tip_hash & proof & found & Htip & Hhash & Hpow & ->).
  destruct (proof_of_work_spec _ _ _ _ _ Hpow) as (Hgoal & Hproof & _ & _).
  destruct (proof_of_work_fields _ _ _ _ _ Hpow) as (_ & _ & _ & Hprev & Hfresh).
  exists (set_hash found proof), (to_data (set_hash found proof) proof).
  split; [reflexivity|]. split; [now apply BlockData_of_dict_Block_dict|].
  assert (Htip' : last_block other = Ok tip)
    by (unfold last_block in *; now rewrite Hchain).
  rewrite (verify_and_add_block_cases _ peer other tip tip_hash Hpeer Htip' Hhash).
  assert (Hof : of_data (to_data (set_hash found proof) proof) = found)
    by (destruct found; cbn in Hfresh; subst; reflexivity).
  rewrite Hof.
  change (data_previous_hash (to_data (set_hash found proof) proof))
    with (previous_hash found).
  change (data_hash (to_data (set_hash found proof) proof)) with proof.
  rewrite Hprev. cbn [mine_candidate previous_hash Block_init].
  rewrite String.eqb_refl.
  assert (Hvalid : is_valid_proof difficulty found proof = true)
    by (apply is_valid_proof_true; auto).
  rewrite Hvalid. cbn [andb chain]. rewrite Hchain.
  unfold sealed_of_data. rewrite Hof. reflexivity.
Qed.

(** X11 -- a block is not accepted twice.  After [verify_and_add_block] has
    answered 201 for a block dict, the same dict offered again to the node
    gets 400 and changes nothing, provided the dict does not name its own
    hash as its previous hash. *)
Theorem verify_and_add_block_rejects_replay (block_data : BlockData) (node node' : Node) :
  verify_and_add_block difficulty block_data node
    = (Ok ("Block added to the chain", 201), node') ->
  data_hash block_data <> data_previous_hash block_data ->
  verify_and_add_block difficulty block_data node'
    = (Ok ("The block was discarded by the node", 400), node').
Proof.
  intros Hfirst Hdistinct. unfold verify_and_add_block in Hfirst.
  destruct (blockchain node) as [self|dump] eqn:Hnode; [|discriminate].
  destruct (add_block difficulty self _ (data_hash block_data))
    as [[[|]|e] grown] eqn:Hadd; try discriminate.
  injection Hfirst as <-.
  apply add_block_true in Hadd. subst grown.
  erewrite verify_and_add_block_cases;
    [|reflexivity|apply last_block_snoc|reflexivity].
  apply String.eqb_neq in Hdistinct. rewrite Hdistinct. reflexivity.
Qed.

Lemma dict_get_set_same (key : string) (value : json) (items : list (string * json)) :
  dict_get key (dict_set key value items) = Some value.
Proof.
  induction items as [|[k v] items IH]; cbn [dict_set dict_get].
  - now rewrite String.eqb_refl.
  - destruct (String.eqb k key) eqn:Hk; cbn [dict_get]; rewrite Hk; auto.
Qed.

Lemma dict_get_set_other (key key' : string) (value : json)
    (items : list (string * json)) :
  key' <> key ->
  dict_get key' (dict_set key value items) = dict_get key' items.
Proof.
  intros Hne. induction items as [|[k v] items IH]; cbn [dict_set dict_get].
  - apply not_eq_sym in Hne. apply String.eqb_neq in Hne. now rewrite Hne.
  - destruct (String.eqb k key) eqn:Hk; cbn [dict_get].
    + apply String.eqb_eq in Hk. subst k.
      apply not_eq_sym in Hne. apply String.eqb_neq in Hne. now rewrite Hne.
    + now rewrite IH.
Qed.

(** X12 -- [new_transaction] checks, stamps and stores.  A dict whose
    "author" or "content" is missing or falsy gets 404 and the node is as
    before.  Otherwise the answer is 201, the chain is untouched and the pool
    has grown at its end by one record: the dict received with "timestamp"
    set to the clock of the node, whatever "timestamp" the sender had put
    there, and every other key as received. *)
Theorem new_transaction_outcome (items : list (string * json)) (now : number)
    (node : Node) (self : Blockchain) :
  blockchain node = LedgerObject self ->
  (falsy (dict_get "author" items) = true \/ falsy (dict_get "content" items) = true ->
   new_transaction (JDict items) now node
   = (Ok ("Invalid transaction data", 404), node)) /\
  (falsy (dict_get "author" items) = false ->
   falsy (dict_get "content" items) = false ->
   exists stored,
     new_transaction (JDict items) now node
     = (Ok ("Success", 201),
        mkNode (LedgerObject (mkBlockchain
                                (unconfirmed_transactions self ++ [JDict stored])
                                (chain self)))
               (peers node)) /\
     dict_get "timestamp" stored = Some (JNum now) /\
     forall key, key <> "timestamp"%string -> dict_get key stored = dict_get key items).
Proof.
  intros Hnode. unfold new_transaction. split.
  - intros [Ha|Hc].
    + now rewrite Ha.
    + rewrite Hc. now destruct (falsy (dict_get "author" items)).
  - intros Ha Hc. rewrite Ha, Hc, Hnode.
    exists (dict_set "timestamp" (JNum now) items).
    split; [reflexivity|]. split.
    + apply dict_get_set_same.
    + intros key Hkey. now apply dict_get_set_other.
Qed.

Lemma set_add_present (a : string) (s : set string) :
  In a s -> set_add string_dec a s = s.
Proof.
  induction s as [|b s IH]; intros Hin; [destruct Hin|].
  cbn [set_add]. destruct (string_dec a b) as [_|Hne]; [reflexivity|].
  destruct Hin as [->|Hin]; [contradiction|]. now rewrite IH.
Qed.

(** X13 -- [register_node] adds a peer once.  A missing or empty address
    gets 400 and changes nothing.  Any other address gets 200; the address
    is then among the peers, the peers there were are still there (with no
    duplicate if there was none), the blockchain is untouched, and
    registering the same address again changes nothing more. *)
Theorem register_node_outcome (address : string) (node : Node) :
  register_node None node = (("Invalid node address", 400), node) /\
  register_node (Some EmptyString) node = (("Invalid node address", 400), node) /\
  (address <> EmptyString ->
   let node' := snd (register_node (Some address) node) in
   fst (register_node (Some address) node) = ("Node registered successfully", 200) /\
   In address (peers node') /\
   (forall peer, In peer (peers node') <-> peer = address \/ In peer (peers node)) /\
   (NoDup (peers node) -> NoDup (peers node')) /\
   blockchain node' = blockchain node /\
   snd (register_node (Some address) node') = node').
Proof.
  split; [reflexivity|]. split; [reflexivity|].
  intros Hne node'. subst node'. unfold register_node.
  apply String.eqb_neq in Hne. rewrite Hne. cbn [fst snd peers blockchain].
  split; [reflexivity|]. split; [apply set_add_intro2; reflexivity|].
  split; [intros peer; apply set_add_iff|].
  split; [apply set_add_nodup|]. split; [reflexivity|].
  rewrite set_add_present; [reflexivity|]. apply set_add_intro2. reflexivity.
Qed.

(** The reconstruction goes through ledgers of the node and never touches
    the pool. *)
Lemma create_chain_from_dump_loop_reachable (chain_dump : list BlockData) :
  forall generated rebuilt : Blockchain,
    reachable difficulty generated ->
    create_chain_from_dump_loop difficulty generated 1 chain_dump = Ok rebuilt ->
    reachable difficulty rebuilt /\
    unconfirmed_transactions rebuilt = unconfirmed_transactions generated.
Proof.
  induction chain_dump as [|block_data chain_dump IH]; intros generated rebuilt Hreach Hrun.
  - injection Hrun as <-. auto.
  - rewrite create_chain_from_dump_loop_step in Hrun.
    pose proof (reach_add_block difficulty generated block_data Hreach) as Hstep.
    destruct (add_block difficulty generated (of_data block_data) (data_hash block_data))
      as [[[|]|e] grown] eqn:Hadd; try discriminate.
    cbn [snd] in Hstep. destruct (IH _ _ Hstep Hrun) as [Hr Hpool].
    split; [exact Hr|]. rewrite Hpool.
    apply add_block_true in Hadd. now subst grown.
Qed.

(** X14 -- what a successful registration leaves.  With a non-empty address:
    on an answer other than 200 the view hands back content and status and
    the node is as before; on a 200 whose dump rebuilds, the blockchain of
    the node is replaced by the rebuilt ledger, which is one the views could
    have led to, starts with the local genesis block, and has an empty pool
    (the records the node had pending are gone), and the peers of the answer
    are added to those of the node. *)
Theorem register_with_existing_node_outcome (node_address : string)
    (response : RegisterResponse) (node : Node) :
  node_address <> EmptyString ->
  (status_code response <> 200 ->
   register_with_existing_node difficulty node_address (Ok response) node
   = (Ok (content response, status_code response), node)) /\
  (forall rebuilt,
     status_code response = 200 ->
     create_chain_from_dump difficulty (response_chain response) = Ok rebuilt ->
     register_with_existing_node difficulty node_address (Ok response) node
     = (Ok ("Registration successful", 200),
        mkNode (LedgerObject rebuilt)
               (set_union string_dec (peers node) (response_peers response))) /\
     reachable difficulty rebuilt /\
     unconfirmed_transactions rebuilt = [] /\
     chain rebuilt = genesis_block :: map sealed_of_data (tl (response_chain response)) /\
     forall peer,
       In peer (set_union string_dec (peers node) (response_peers response))
       <-> In peer (peers node) \/ In peer (response_peers response)).
Proof.
  intros Haddr. apply String.eqb_neq in Haddr.
  unfold register_with_existing_node. rewrite Haddr. split.
  - intros Hstatus. apply Z.eqb_neq in Hstatus. now rewrite Hstatus.
  - intros rebuilt Hstatus Hdump. rewrite Hstatus, Hdump. cbn [Z.eqb Pos.eqb].
    split; [reflexivity|].
    assert (Hloop : create_chain_from_dump_loop difficulty initial_blockchain 1
                      (tl (response_chain response)) = Ok rebuilt).
    { destruct (response_chain response) as [|first rest]; [exact Hdump|].
      now rewrite create_chain_from_dump_cons in Hdump. }
    destruct (create_chain_from_dump_loop_reachable _ _ _ (reach_initial difficulty) Hloop)
      as [Hreach Hpool].
    destruct initial_blockchain_tip as [Htip Hhash].
    destruct (create_chain_from_dump_loop_ok difficulty _ _ _ _ _ Htip Hhash Hloop)
      as (Hchain & _ & _).
    repeat split; try assumption.
    + apply set_union_elim.
    + apply set_union_intro.
Qed.

Lemma consensus_loop_passes_over (before : list (result ChainResponse)) :
  forall (later : list (result ChainResponse)) (current_len : Z)
         (longest_chain : option (list pyobj)),
    Forall (not_longer current_len) before ->
    consensus_loop difficulty (before ++ later) current_len longest_chain
    = consensus_loop difficulty later current_len longest_chain.
Proof.
  induction before as [|fetch before IH]; intros later current_len longest_chain Hshort.
  - reflexivity.
  - inversion Hshort as [|? ? (response & -> & Hlen) Hrest]; subst.
    cbn [app consensus_loop].
    replace (response_length response >? current_len) with false
      by (symmetry; rewrite Z.gtb_ltb; apply Z.ltb_ge; exact Hlen).
    cbn [negb]. now apply IH.
Qed.

Lemma consensus_all_not_longer (fetched : list (result ChainResponse))
    (node : Node) (self : Blockchain) :
  blockchain node = LedgerObject self ->
  Forall (not_longer (Z.of_nat (List.length (chain self)))) fetched ->
  consensus difficulty fetched node = (Ok false, node).
Proof.
  intros Hnode Hshort. unfold consensus. rewrite Hnode. cbn [ledger_chain_len].
  rewrite <- (app_nil_r fetched).
  rewrite (consensus_loop_passes_over fetched [] _ None Hshort).
  reflexivity.
Qed.

Lemma consensus_longer_raises (before later : list (result ChainResponse))
    (response : ChainResponse) (node : Node) (self : Blockchain) :
  blockchain node = LedgerObject self ->
  Forall (not_longer (Z.of_nat (List.length (chain self)))) before ->
  Z.of_nat (List.length (chain self)) < response_length response ->
  response_dump response <> [] ->
  consensus difficulty (before ++ Ok response :: later) node
  = (Raise AttributeError, node).
Proof.
  intros Hnode Hshort Hlonger Hdump. unfold consensus. rewrite Hnode.
  cbn [ledger_chain_len].
  rewrite (consensus_loop_passes_over before _ _ None Hshort).
  cbn [consensus_loop].
  replace (response_length response >? Z.of_nat (List.length (chain self))) with true
    by (symmetry; rewrite Z.gtb_ltb; apply Z.ltb_lt; exact Hlonger).
  cbn [negb].
  destruct (response_dump response) as [|d ds]; [contradiction|]. reflexivity.
Qed.

(** X15 -- what [consensus] answers.  On a node that holds a [Blockchain]:
    when every peer answers and none reports more blocks than the node has,
    [consensus] returns False; when the first peer that reports more blocks
    sends a non-empty chain, [consensus] raises [AttributeError] (it reads
    [block.hash] on a dict); when a request fails before that, its exception
    goes through.  In each case the node is as before, and [consensus] never
    returns True. *)
Theorem consensus_outcomes (fetched : list (result ChainResponse))
    (node : Node) (self : Blockchain) :
  blockchain node = LedgerObject self ->
  (Forall (not_longer (Z.of_nat (List.length (chain self)))) fetched ->
   consensus difficulty fetched node = (Ok false, node)) /\
  (forall before response later,
     fetched = before ++ Ok response :: later ->
     Forall (not_longer (Z.of_nat (List.length (chain self)))) before ->
     Z.of_nat (List.length (chain self)) < response_length response ->
     response_dump response <> [] ->
     consensus difficulty fetched node = (Raise AttributeError, node)) /\
  (forall before e later,
     fetched = before ++ Raise e :: later ->
     Forall (not_longer (Z.of_nat (List.length (chain self)))) before ->
     consensus difficulty fetched node = (Raise e, node)) /\
  fst (consensus difficulty fetched node) <> Ok true.
Proof.
  intros Hnode. split; [|split; [|split]].
  - now apply consensus_all_not_longer.
  - intros before response later -> Hshort Hlonger Hdump.
    now apply (consensus_longer_raises before later response node self).
  - intros before e later -> Hshort. unfold consensus. rewrite Hnode.
    cbn [ledger_chain_len].
    now rewrite (consensus_loop_passes_over before _ _ None Hshort).
  - unfold consensus. rewrite Hnode. cbn [ledger_chain_len].
    destruct (consensus_loop difficulty fetched _ None) as [found|e] eqn:Hloop;
      [|discriminate].
    apply consensus_loop_falsy in Hloop; [|reflexivity].
    rewrite Hloop. discriminate.
Qed.

Lemma announce_new_block_all_posted (post : string -> string -> result unit)
    (peers : list string) (block : Block) :
  (forall url data, post url data = Ok tt) ->
  announce_new_block post peers block
  = (Ok tt, map (fun peer => ((peer ++ "add_block")%string,
                              Json.dumps (Block_dict block))) peers).
Proof.
  intros Hpost. induction peers as [|peer peers IH]; [reflexivity|].
  cbn [announce_new_block map]. now rewrite Hpost, IH.
Qed.

(** X16 -- [GET /mine] when no peer is ahead.  If [mine] returns True, every
    peer answers [consensus] with a length that is not above the new length
    of the chain, and every post goes through, then the view answers
    "Block #n is mined." with n the index of the new tip, the node holds the
    chain with the new block and an empty pool, and exactly one post has
    gone to each peer, at [peer + "add_block"], carrying the JSON text of
    the new tip with its keys sorted. *)
Theorem mine_view_announces (fuel : nat) (now : number)
    (fetched : list (result ChainResponse)) (post : string -> string -> result unit)
    (node : Node) (self self' : Blockchain) :
  blockchain node = LedgerObject self ->
  mine difficulty fuel now self = Some (Ok true, self') ->
  Forall (not_longer (Z.of_nat (List.length (chain self')))) fetched ->
  (forall url data, post url data = Ok tt) ->
  exists new_block,
    chain self' = chain self ++ [new_block] /\
    unconfirmed_transactions self' = [] /\
    mine_unconfirmed_transactions difficulty fuel now fetched post node
    = Some (Ok ("Block #" ++ Json.number_repr (Int (index new_block))
                ++ " is mined.")%string,
            mkNode (LedgerObject self') (peers node),
            map (fun peer => ((peer ++ "add_block")%string,
                              Json.dumps (Block_dict new_block))) (peers node)).
Proof.
  intros Hnode Hrun Hshort Hpost.
  destruct (mine_true fuel now self self' Hrun)
    as (tip & tip_hash & proof & found & _ & _ & _ & Hself').
  exists (set_hash found proof).
  split; [now rewrite Hself'|]. split; [now rewrite Hself'|].
  assert (Htip' : last_block self' = Ok (set_hash found proof))
    by (rewrite Hself'; unfold last_block; cbn [chain]; now rewrite rev_unit).
  unfold mine_unconfirmed_transactions. rewrite Hnode, Hrun.
  cbv beta iota zeta.
  rewrite (consensus_all_not_longer fetched
             (mkNode (LedgerObject self') (peers node)) self' eq_refl Hshort).
  cbn [blockchain peers ledger_chain_len ledger_last_block].
  rewrite Z.eqb_refl, Htip'.
  rewrite (announce_new_block_all_posted post (peers node) _ Hpost).
  reflexivity.
Qed.

(** X17 -- [GET /mine] when a peer is ahead.  If [mine] returns True and the
    first peer that reports more blocks than the chain now has sends a
    non-empty chain, the view raises [AttributeError] out of [consensus]:
    the new block stays on the chain of the node and the pool stays empty,
    but nothing has been announced to any peer. *)
Theorem mine_view_fails_after_mining (fuel : nat) (now : number)
    (before later : list (result ChainResponse)) (response : ChainResponse)
    (post : string -> string -> result unit)
    (node : Node) (self self' : Blockchain) :
  blockchain node = LedgerObject self ->
  mine difficulty fuel now self = Some (Ok true, self') ->
  Forall (not_longer (Z.of_nat (List.length (chain self')))) before ->
  Z.of_nat (List.length (chain self')) < response_length response ->
  response_dump response <> [] ->
  exists new_block,
    chain self' = chain self ++ [new_block] /\
    unconfirmed_transactions self' = [] /\
    mine_unconfirmed_transactions difficulty fuel now
      (before ++ Ok response :: later) post node
    = Some (Raise AttributeError, mkNode (LedgerObject self') (peers node), []).
Proof.
  intros Hnode Hrun Hshort Hlonger Hdump.
  destruct (mine_true fuel now self self' Hrun)
    as (tip & tip_hash & proof & found & _ & _ & _ & Hself').
  exists (set_hash found proof).
  split; [now rewrite Hself'|]. split; [now rewrite Hself'|].
  unfold mine_unconfirmed_transactions. rewrite Hnode, Hrun.
  cbv beta iota zeta.
  rewrite (consensus_longer_raises before later response
             (mkNode (LedgerObject self') (peers node)) self' eq_refl
             Hshort Hlonger Hdump).
  reflexivity.
Qed.

End ViewProperties.

(* ------------------------------------------------------------------ *)
(** * The size of a digest and the difficulty *)

Lemma hex_of_length (digits : nat) :
  forall (x : Z) (acc : string),
    String.length (SHA256.hex_of digits x acc) = (digits + String.length acc)%nat.
Proof.
  induction digits as [|digits IH]; intros x acc; cbn [SHA256.hex_of]; [reflexivity|].
  rewrite IH. cbn [String.length]. lia.
Qed.

Lemma round_length (st : list Z) (wk : Z * Z) :
  List.length (SHA256.round st wk) = List.length st.
Proof.
  unfold SHA256.round.
  do 8 (destruct st as [|? st]; [reflexivity|]). destruct st; reflexivity.
Qed.

Lemma compress_length (st block : list Z) :
  List.length (SHA256.compress st block) = List.length st.
Proof.
  unfold SHA256.compress. rewrite length_map, length_combine.
  assert (H : forall rounds st0,
             List.length (fold_left SHA256.round rounds st0) = List.length st0).
  { induction rounds as [|wk rounds IH]; intros st0; cbn [fold_left]; [reflexivity|].
    now rewrite IH, round_length. }
  rewrite H. apply Nat.min_id.
Qed.

Lemma digest_words_length (msg : list Z) :
  List.length (SHA256.digest_words msg) = 8%nat.
Proof.
  unfold SHA256.digest_words.
  assert (H : forall blocks st,
             List.length (fold_left (fun st blk =>
                            SHA256.compress st (map SHA256.be_word (SHA256.group 4 16 blk)))
                          blocks st) = List.length st).
  { induction blocks as [|blk blocks IH]; intros st; cbn [fold_left]; [reflexivity|].
    now rewrite IH, compress_length. }
  rewrite H. reflexivity.
Qed.

(** [hexdigest()] is 64 characters long. *)
Lemma hexdigest_length (s : string) : String.length (SHA256.hexdigest s) = 64%nat.
Proof.
  unfold SHA256.hexdigest.
  assert (H : forall words,
             String.length (fold_right (fun w acc => SHA256.hex_of 8 w acc)
                                       EmptyString words)
             = (8 * List.length words)%nat).
  { induction words as [|w words IH]; cbn [fold_right List.length]; [reflexivity|].
    rewrite hex_of_length, IH. lia. }
  now rewrite H, digest_words_length.
Qed.

Lemma startswith_length (s p : string) :
  startswith s p = true -> (String.length p <= String.length s)%nat.
Proof.
  unfold startswith. revert s. induction p as [|a p IH]; intros s Hp.
  - cbn [String.length]. lia.
  - destruct s as [|b s]; cbn [prefix] in Hp; [discriminate|].
    destruct (ascii_dec a b); [|discriminate].
    cbn [String.length]. apply IH in Hp. lia.
Qed.

(** X18 -- a difficulty above 64 cannot be met.  [compute_hash] always
    returns 64 characters, so with [difficulty > 64] no claimed hash is a
    valid proof for any block, [add_block] accepts nothing, and
    [proof_of_work] does not return, however many turns of its loop it is
    allowed. *)
Theorem difficulty_above_digest_size (difficulty : nat) :
  (64 < difficulty)%nat ->
  (forall block, String.length (compute_hash block) = 64%nat) /\
  (forall block proof, is_valid_proof difficulty block proof = false) /\
  (forall self block proof,
     fst (add_block difficulty self block proof) <> Ok true) /\
  (forall fuel block, proof_of_work difficulty fuel block = None).
Proof.
  intros Hd.
  assert (Hlen : forall block, String.length (compute_hash block) = 64%nat)
    by (intros block; apply hexdigest_length).
  assert (Hnever : forall block proof, is_valid_proof difficulty block proof = false).
  { intros block proof.
    destruct (is_valid_proof difficulty block proof) eqn:Hvalid; [|reflexivity].
    apply is_valid_proof_true in Hvalid. destruct Hvalid as [Hprefix ->].
    apply startswith_length in Hprefix.
    rewrite str_mul_zero_length, Hlen in Hprefix. lia. }
  split; [exact Hlen|]. split; [exact Hnever|]. split.
  - intros self block proof. unfold add_block.
    destruct (last_block self) as [tip|e]; [|discriminate].
    destruct (getattr_hash tip) as [tip_hash|e]; [|discriminate].
    destruct (negb (String.eqb tip_hash (previous_hash block))); [discriminate|].
    rewrite Hnever. discriminate.
  - intros fuel block.
    destruct (proof_of_work difficulty fuel block) as [[proof found]|] eqn:Hrun;
      [|reflexivity].
    destruct (proof_of_work_spec _ _ _ _ _ Hrun) as (Hprefix & -> & _ & _).
    apply startswith_length in Hprefix.
    rewrite str_mul_zero_length, Hlen in Hprefix. lia.
Qed.

(* ------------------------------------------------------------------ *)
(** * The order of the keys *)

Lemma string_leb_trans (s1 : string) :
  forall s2 s3 : string,
    String.leb s1 s2 = true -> String.leb s2 s3 = true -> String.leb s1 s3 = true.
Proof.
  unfold String.leb.
  induction s1 as [|a s1 IH]; intros [|b s2] [|c s3]; cbn [String.compare];
    try reflexivity; try discriminate.
  unfold Ascii.compare.
  destruct (N.compare_spec (N_of_ascii a) (N_of_ascii b)) as [Hab|Hab|Hab];
    destruct (N.compare_spec (N_of_ascii b) (N_of_ascii c)) as [Hbc|Hbc|Hbc];
    destruct (N.compare_spec (N_of_ascii a) (N_of_ascii c)) as [Hac|Hac|Hac];
    try discriminate; try reflexivity; try lia.
  apply IH.
Qed.

(** Two items with different keys go into a rendered list in either
    order. *)
Lemma insert_item_comm (a b : string * string) (l : list (string * string)) :
  fst a <> fst b ->
  Json.insert_item a (Json.insert_item b l) = Json.insert_item b (Json.insert_item a l).
Proof.
  intros Hne.
  assert (Hab : String.leb (fst a) (fst b) = negb (String.leb (fst b) (fst a))).
  { destruct (String.leb (fst a) (fst b)) eqn:H1, (String.leb (fst b) (fst a)) eqn:H2;
      try reflexivity.
    - elim Hne. now apply String.leb_antisym.
    - destruct (String.leb_total (fst a) (fst b)); congruence. }
  induction l as [|x l IH]; cbn [Json.insert_item].
  - rewrite Hab. now destruct (String.leb (fst b) (fst a)).
  - destruct (String.leb (fst a) (fst x)) eqn:Hax, (String.leb (fst b) (fst x)) eqn:Hbx;
      cbn [Json.insert_item]; rewrite ?Hax, ?Hbx.
    + rewrite Hab. now destruct (String.leb (fst b) (fst a)); cbn [negb]; rewrite ?Hax, ?Hbx.
    + destruct (String.leb (fst b) (fst a)) eqn:Hba; [|reflexivity].
      rewrite (string_leb_trans _ _ _ Hba Hax) in Hbx. discriminate.
    + destruct (String.leb (fst a) (fst b)) eqn:Hab'; [|reflexivity].
      rewrite (string_leb_trans _ _ _ Hab' Hbx) in Hax. discriminate.
    + now rewrite IH.
Qed.

Lemma sort_items_permutation (l l' : list (string * string)) :
  Permutation l l' -> NoDup (map fst l) -> Json.sort_items l = Json.sort_items l'.
Proof.
  unfold Json.sort_items.
  induction 1 as [|x l l' Hperm IH|x y l|l l' l'' H1 IH1 H2 IH2]; intros Hnodup.
  - reflexivity.
  - cbn [fold_right]. cbn [map] in Hnodup. inversion Hnodup; subst. now rewrite IH.
  - cbn [fold_right]. apply insert_item_comm.
    cbn [map] in Hnodup. inversion Hnodup as [|? ? Hnotin _]; subst.
    intros Heq. apply Hnotin. left. symmetry. exact Heq.
  - rewrite IH1 by exact Hnodup. apply IH2.
    apply (Permutation_NoDup (Permutation_map fst H1) Hnodup).
Qed.

Lemma dumps_dict (items : list (string * json)) :
  Json.dumps (JDict items)
  = ("{" ++ Json.join ", "
        (map Json.render_item
           (Json.sort_items (map (fun kv => (fst kv, Json.dumps (snd kv))) items)))
     ++ "}")%string.
Proof. reflexivity. Qed.

(** X19 -- the order of the attributes does not matter.  With
    [sort_keys=True] the text [json.dumps] gives for a dict, hence the digest
    [compute_hash] takes of it, is the same for any two orders in which the
    dict holds the same items under distinct keys. *)
Theorem dumps_ignores_key_order (items items' : list (string * json)) :
  Permutation items items' ->
  NoDup (map fst items) ->
  Json.dumps (JDict items) = Json.dumps (JDict items') /\
  SHA256.hexdigest (Json.dumps (JDict items))
  = SHA256.hexdigest (Json.dumps (JDict items')).
Proof.
  intros Hperm Hnodup.
  assert (Htext : Json.dumps (JDict items) = Json.dumps (JDict items')).
  { rewrite !dumps_dict.
    rewrite (sort_items_permutation _ _
               (Permutation_map (fun kv => (fst kv, Json.dumps (snd kv))) Hperm)).
    - reflexivity.
    - now rewrite map_map. }
  split; [exact Htext|now rewrite Htext].
Qed.

(* ------------------------------------------------------------------ *)
(** * The properties above on the recorded scenario *)

Lemma mined_blockchain_reachable : reachable Blockchain_difficulty mined_blockchain.
Proof.
  apply (reach_mine Blockchain_difficulty blockchain_with_pool 3 mining_time (Ok true)).
  - apply reach_transaction, reach_initial.
  - vm_compute. reflexivity.
Defined.

Lemma proof_of_work_least_nonce_witness :
  startswith (compute_hash (set_nonce candidate_1 0))
             (str_mul "0" Blockchain_difficulty) = false /\
  startswith (compute_hash (set_nonce candidate_1 1))
             (str_mul "0" Blockchain_difficulty) = false /\
  startswith (compute_hash (set_nonce candidate_1 2))
             (str_mul "0" Blockchain_difficulty) = false.
Proof.
  assert (Hrun : proof_of_work Blockchain_difficulty 3 candidate_1
                 = Some (digest_1, set_nonce candidate_1 3))
    by (vm_compute; reflexivity).
  split; [|split];
    apply (proof_of_work_least_nonce Blockchain_difficulty 3 candidate_1 digest_1
             (set_nonce candidate_1 3) Hrun);
    cbn [nonce set_nonce]; lia.
Defined.

Lemma proof_of_work_returns_first_witness :
  proof_of_work Blockchain_difficulty 5 candidate_1
  = Some (compute_hash (set_nonce candidate_1 (Z.of_nat 3)),
          set_nonce candidate_1 (Z.of_nat 3)).
Proof.
  apply (proof_of_work_returns_first Blockchain_difficulty 3 5 candidate_1).
  - vm_compute. reflexivity.
  - intros m Hm. destruct m as [|[|[|m]]]; [vm_compute; reflexivity ..|lia].
  - lia.
Defined.

Lemma check_chain_validity_false_strips_first_failure_witness :
  exists passed bad later bad_hash,
    [mined_genesis; block_1; mined_second] = passed ++ bad :: later /\
    hash bad = Some bad_hash /\
    map PBlock [mined_genesis; delattr_hash block_1; mined_second]
      = map PBlock (passed ++ delattr_hash bad :: later) /\
    linked "0" passed /\ Forall (sealed Blockchain_difficulty) passed /\
    (is_valid_proof Blockchain_difficulty (delattr_hash bad) bad_hash = false \/
     previous_hash bad <> final_hash "0" passed).
Proof.
  apply (check_chain_validity_false_strips_first_failure Blockchain_difficulty
           [mined_genesis; block_1; mined_second]).
  vm_compute. reflexivity.
Defined.

Lemma check_chain_validity_raise_witness :
  AttributeError = AttributeError /\
  [PBlock mined_genesis; PBlock candidate_1; PDict (to_data block_1 digest_1)]
    = [PBlock mined_genesis; PBlock candidate_1; PDict (to_data block_1 digest_1)] /\
  exists passed culprit later,
    [PBlock mined_genesis; PBlock candidate_1; PDict (to_data block_1 digest_1)]
      = map PBlock passed ++ culprit :: later /\
    linked "0" passed /\ Forall (sealed Blockchain_difficulty) passed /\
    match culprit with
    | PBlock b => hash b = None
    | PDict _ => True
    end.
Proof.
  apply (check_chain_validity_raise Blockchain_difficulty
           [PBlock mined_genesis; PBlock candidate_1; PDict (to_data block_1 digest_1)]
           AttributeError
           [PBlock mined_genesis; PBlock candidate_1; PDict (to_data block_1 digest_1)]).
  vm_compute. reflexivity.
Defined.

Lemma reachable_chain_invariant_witness :
  exists rest,
    chain mined_blockchain = genesis_block :: rest /\
    linked genesis_hash rest /\
    Forall (sealed Blockchain_difficulty) rest.
Proof.
  apply (reachable_chain_invariant Blockchain_difficulty mined_blockchain).
  exact mined_blockchain_reachable.
Defined.

Lemma reachable_tip_has_hash_witness :
  chain mined_blockchain <> [] /\
  exists tip tip_hash,
    last_block mined_blockchain = Ok tip /\
    getattr_hash tip = Ok tip_hash /\
    (tip = genesis_block \/
     is_valid_proof Blockchain_difficulty (delattr_hash tip) tip_hash = true).
Proof.
  apply (reachable_tip_has_hash Blockchain_difficulty mined_blockchain).
  exact mined_blockchain_reachable.
Defined.

Lemma check_chain_validity_on_reachable_witness :
  check_chain_validity Blockchain_difficulty (map PBlock (chain mined_blockchain))
  = if startswith genesis_hash (str_mul "0" Blockchain_difficulty)
    then (Ok true, map PBlock (chain mined_blockchain))
    else (Ok false,
          PBlock (delattr_hash genesis_block) :: map PBlock (tl (chain mined_blockchain))).
Proof.
  apply (check_chain_validity_on_reachable Blockchain_difficulty mined_blockchain).
  exact mined_blockchain_reachable.
Defined.

Lemma get_chain_rebuilds_witness :
  exists chain_data dump,
    get_chain_dict (mkNode (LedgerObject mined_blockchain) [])
      = Ok (JDict [ ("length", JNum (Int (Z.of_nat (List.length (chain mined_blockchain)))));
                    ("chain", JList chain_data);
                    ("peers", JList (map JStr (peers (mkNode (LedgerObject mined_blockchain) [])))) ]) /\
    BlockData_of_dicts chain_data = Some dump /\
    create_chain_from_dump Blockchain_difficulty dump
      = Ok (mkBlockchain [] (chain mined_blockchain)).
Proof.
  apply (get_chain_rebuilds Blockchain_difficulty
           (mkNode (LedgerObject mined_blockchain) []) mined_blockchain).
  - reflexivity.
  - exact mined_blockchain_reachable.
Defined.

Lemma mined_block_accepted_by_peer_witness :
  exists new_block block_data,
    chain mined_blockchain = chain blockchain_with_pool ++ [new_block] /\
    BlockData_of_dict (Block_dict new_block) = Some block_data /\
    verify_and_add_block Blockchain_difficulty block_data initial_node
    = (Ok ("Block added to the chain", 201),
       mkNode (LedgerObject (set_chain initial_blockchain (chain mined_blockchain)))
              (peers initial_node)).
Proof.
  apply (mined_block_accepted_by_peer Blockchain_difficulty 3 mining_time
           blockchain_with_pool mined_blockchain initial_blockchain initial_node).
  - vm_compute. reflexivity.
  - reflexivity.
  - reflexivity.
Defined.

Lemma verify_and_add_block_rejects_replay_witness :
  verify_and_add_block Blockchain_difficulty (to_data block_1 digest_1)
    (mkNode (LedgerObject mined_blockchain) [])
  = (Ok ("The block was discarded by the node", 400),
     mkNode (LedgerObject mined_blockchain) []).
Proof.
  apply (verify_and_add_block_rejects_replay Blockchain_difficulty
           (to_data block_1 digest_1) initial_node
           (mkNode (LedgerObject mined_blockchain) [])).
  - vm_compute. reflexivity.
  - vm_compute. discriminate.
Defined.

Lemma new_transaction_outcome_witness :
  new_transaction (JDict [("author", JStr "a"); ("content", JStr EmptyString)])
    mining_time initial_node
  = (Ok ("Invalid transaction data", 404), initial_node) /\
  exists stored,
    new_transaction (JDict tx_items) mining_time initial_node
    = (Ok ("Success", 201),
       mkNode (LedgerObject (mkBlockchain
                               (unconfirmed_transactions initial_blockchain ++ [JDict stored])
                               (chain initial_blockchain)))
              (peers initial_node)) /\
    dict_get "timestamp" stored = Some (JNum mining_time) /\
    forall key, key <> "timestamp"%string -> dict_get key stored = dict_get key tx_items.
Proof.
  split.
  - apply (new_transaction_outcome [("author", JStr "a"); ("content", JStr EmptyString)]
             mining_time initial_node initial_blockchain eq_refl).
    right. reflexivity.
  - apply (new_transaction_outcome tx_items mining_time initial_node
             initial_blockchain eq_refl); reflexivity.
Defined.

Lemma register_node_outcome_witness :
  let node' := snd (register_node (Some "http://10.253.55.151:8000/") initial_node) in
  fst (register_node (Some "http://10.253.55.151:8000/") initial_node)
    = ("Node registered successfully", 200) /\
  In "http://10.253.55.151:8000/"%string (peers node') /\
  (forall peer, In peer (peers node')
                <-> peer = "http://10.253.55.151:8000/"%string \/ In peer (peers initial_node)) /\
  (NoDup (peers initial_node) -> NoDup (peers node')) /\
  blockchain node' = blockchain initial_node /\
  snd (register_node (Some "http://10.253.55.151:8000/") node') = node'.
Proof.
  apply (register_node_outcome "http://10.253.55.151:8000/" initial_node).
  discriminate.
Defined.

Lemma register_with_existing_node_outcome_witness :
  register_with_existing_node Blockchain_difficulty "http://10.253.19.173:8000/"
    (Ok rejected_response) node_with_peers
  = (Ok (content rejected_response, status_code rejected_response), node_with_peers) /\
  register_with_existing_node Blockchain_difficulty "http://10.253.19.173:8000/"
    (Ok honest_response) node_with_peers
  = (Ok ("Registration successful", 200),
     mkNode (LedgerObject mined_blockchain)
            (set_union string_dec (peers node_with_peers)
                       (response_peers honest_response))) /\
  unconfirmed_transactions mined_blockchain = [].
Proof.
  assert (Haddr : "http://10.253.19.173:8000/"%string <> EmptyString) by discriminate.
  assert (Hstatus : status_code rejected_response <> 200) by discriminate.
  assert (Hdump : create_chain_from_dump Blockchain_difficulty
                    (response_chain honest_response) = Ok mined_blockchain)
    by (vm_compute; reflexivity).
  split.
  - exact (proj1 (register_with_existing_node_outcome Blockchain_difficulty
                    "http://10.253.19.173:8000/" rejected_response node_with_peers Haddr)
                 Hstatus).
  - destruct (proj2 (register_with_existing_node_outcome Blockchain_difficulty
                       "http://10.253.19.173:8000/" honest_response node_with_peers Haddr)
                    mined_blockchain eq_refl Hdump) as (Hview & _ & Hpool & _).
    split; assumption.
Defined.

Lemma consensus_outcomes_witness :
  consensus Blockchain_difficulty [Ok initial_chain_response] initial_node
    = (Ok false, initial_node) /\
  consensus Blockchain_difficulty
    [Ok initial_chain_response; Ok longer_chain_response; Raise ConnectionError]
    initial_node
    = (Raise AttributeError, initial_node) /\
  consensus Blockchain_difficulty [Ok initial_chain_response; Raise ConnectionError]
    initial_node
    = (Raise ConnectionError, initial_node).
Proof.
  split; [|split].
  - apply (consensus_outcomes Blockchain_difficulty [Ok initial_chain_response]
             initial_node initial_blockchain eq_refl).
    constructor; [|constructor]. exists initial_chain_response.
    split; [reflexivity|vm_compute; discriminate].
  - apply (proj1 (proj2 (consensus_outcomes Blockchain_difficulty
             [Ok initial_chain_response; Ok longer_chain_response; Raise ConnectionError]
             initial_node initial_blockchain eq_refl))
             [Ok initial_chain_response] longer_chain_response [Raise ConnectionError]).
    + reflexivity.
    + constructor; [|constructor]. exists initial_chain_response.
      split; [reflexivity|vm_compute; discriminate].
    + vm_compute. reflexivity.
    + discriminate.
  - apply (proj1 (proj2 (proj2 (consensus_outcomes Blockchain_difficulty
             [Ok initial_chain_response; Raise ConnectionError]
             initial_node initial_blockchain eq_refl)))
             [Ok initial_chain_response] ConnectionError []).
    + reflexivity.
    + constructor; [|constructor]. exists initial_chain_response.
      split; [reflexivity|vm_compute; discriminate].
Defined.

Lemma mine_view_announces_witness :
  exists new_block,
    chain mined_blockchain = chain blockchain_with_pool ++ [new_block] /\
    unconfirmed_transactions mined_blockchain = [] /\
    mine_unconfirmed_transactions Blockchain_difficulty 3 mining_time
      [Ok initial_chain_response; Ok initial_chain_response] post_ok node_with_peers
    = Some (Ok ("Block #" ++ Json.number_repr (Int (index new_block))
                ++ " is mined.")%string,
            mkNode (LedgerObject mined_blockchain) (peers node_with_peers),
            map (fun peer => ((peer ++ "add_block")%string,
                              Json.dumps (Block_dict new_block)))
                (peers node_with_peers)).
Proof.
  apply (mine_view_announces Blockchain_difficulty 3 mining_time
           [Ok initial_chain_response; Ok initial_chain_response] post_ok
           node_with_peers blockchain_with_pool mined_blockchain).
  - reflexivity.
  - vm_compute. reflexivity.
  - repeat constructor; exists initial_chain_response;
      (split; [reflexivity|vm_compute; discriminate]).
  - reflexivity.
Defined.

Lemma mine_view_fails_after_mining_witness :
  exists new_block,
    chain mined_blockchain = chain blockchain_with_pool ++ [new_block] /\
    unconfirmed_transactions mined_blockchain = [] /\
    mine_unconfirmed_transactions Blockchain_difficulty 3 mining_time
      ([Ok initial_chain_response] ++ Ok longer_chain_response :: [])
      post_ok node_with_peers
    = Some (Raise AttributeError,
            mkNode (LedgerObject mined_blockchain) (peers node_with_peers), []).
Proof.
  apply (mine_view_fails_after_mining Blockchain_difficulty 3 mining_time
           [Ok initial_chain_response] [] longer_chain_response post_ok
           node_with_peers blockchain_with_pool mined_blockchain).
  - reflexivity.
  - vm_compute. reflexivity.
  - repeat constructor; exists initial_chain_response;
      (split; [reflexivity|vm_compute; discriminate]).
  - vm_compute. reflexivity.
  - discriminate.
Defined.

Lemma difficulty_above_digest_size_witness :
  (forall block, String.length (compute_hash block) = 64%nat) /\
  (forall block proof, is_valid_proof 65 block proof = false) /\
  (forall self block proof, fst (add_block 65 self block proof) <> Ok true) /\
  (forall fuel block, proof_of_work 65 fuel block = None).
Proof. apply (difficulty_above_digest_size 65). lia. Defined.

Lemma dumps_ignores_key_order_witness :
  Json.dumps (JDict [("nonce", JNum (Int 3)); ("index", JNum (Int 1))])
  = Json.dumps (JDict [("index", JNum (Int 1)); ("nonce", JNum (Int 3))]) /\
  SHA256.hexdigest (Json.dumps (JDict [("nonce", JNum (Int 3)); ("index", JNum (Int 1))]))
  = SHA256.hexdigest (Json.dumps (JDict [("index", JNum (Int 1)); ("nonce", JNum (Int 3))])).
Proof.
  apply (dumps_ignores_key_order [("nonce", JNum (Int 3)); ("index", JNum (Int 1))]
           [("index", JNum (Int 1)); ("nonce", JNum (Int 3))]).
  - apply perm_swap.
  - repeat constructor; simpl; intuition discriminate.
Defined.
